(** * breaking_bad: the news-classification pipeline orchestrator

    A shallow embedding of [src/breaking-bad]: the key sanitizer and the
    agent runner of [agents/base.py], the finalizer of
    [agents/finalizer.py], the store wrapper of [database.py] and the
    orchestrator of [orchestrator.py].

    Python values are modelled by the type [value]; a Python [dict] is an
    association list in insertion order, written only through [dict_set],
    which overwrites an existing key in place as Python does.  The Mongo
    collection and the file system are finite maps ([gmap]); effects are
    threaded through a state-and-exception monad over [world].  Calls to
    [logging] have no effect on the store or on the file system and are
    left out. *)

From Stdlib Require Import ZArith String Ascii List Lia.
From stdpp Require Import gmap strings list fin_maps.

#[local] Set Warnings "-register-all".

Open Scope string_scope.

(** ** Python values *)

Inductive atom : Type :=
| ANone
| ABool (b : bool)
| AInt (n : Z)
| AFloat (bits : Z)          (* an IEEE-754 double, by its bit pattern *)
| AStr (s : string)
| ADatetime (t : Z).

#[global] Instance atom_eq_dec : EqDecision atom.
Proof. solve_decision. Defined.

Inductive value : Type :=
| VAtom (a : atom)
| VList (items : list value)
| VDict (entries : list (string * value)).

Abbreviation VNone := (VAtom ANone).
Abbreviation VBool b := (VAtom (ABool b)).
Abbreviation VInt n := (VAtom (AInt n)).
Abbreviation VStr s := (VAtom (AStr s)).

Definition is_container (v : value) : bool :=
  match v with
  | VAtom _ => false
  | _ => true
  end.

(** Induction over nested values: the hypotheses for lists and mappings
    give the property for every element and for every entry's value. *)
Section value_induction.
Variable P : value -> Prop.
Hypothesis Hatom : forall a, P (VAtom a).
Hypothesis Hlist : forall l, Forall P l -> P (VList l).
Hypothesis Hdict : forall d, Forall (fun kv => P kv.2) d -> P (VDict d).

Fixpoint value_nested_ind (v : value) : P v :=
  match v with
  | VAtom a => Hatom a
  | VList l =>
      Hlist l ((fix go (l : list value) : Forall P l :=
                  match l with
                  | [] => @List.Forall_nil _ P
                  | x :: l' => @List.Forall_cons _ P x l' (value_nested_ind x) (go l')
                  end) l)
  | VDict d =>
      Hdict d ((fix go (d : list (string * value))
                  : Forall (fun kv => P kv.2) d :=
                  match d with
                  | [] => @List.Forall_nil _ _
                  | kv :: d' =>
                      @List.Forall_cons _ (fun kv => P kv.2) kv d'
                        (value_nested_ind kv.2) (go d')
                  end) d)
  end.
End value_induction.

(** ** Python dictionaries *)

Fixpoint dict_get (d : list (string * value)) (k : string) : option value :=
  match d with
  | [] => None
  | (k', v) :: d' => if String.eqb k' k then Some v else dict_get d' k
  end.

(** [d[k] = v]: an existing key keeps its position and takes the new
    value, a new key goes last. *)
Fixpoint dict_set (d : list (string * value)) (k : string) (v : value)
  : list (string * value) :=
  match d with
  | [] => [(k, v)]
  | (k', v') :: d' =>
      if String.eqb k' k then (k', v) :: d' else (k', v') :: dict_set d' k v
  end.

(** The dictionary a comprehension [{k: v for ...}] builds from the pairs
    it produces, in order. *)
Definition dict_of_items (items : list (string * value))
  : list (string * value) :=
  fold_left (fun acc kv => dict_set acc kv.1 kv.2) items [].

(** ** Strings *)

Fixpoint str_map (f : ascii -> ascii) (s : string) : string :=
  match s with
  | EmptyString => EmptyString
  | String c s' => String (f c) (str_map f s')
  end.

(** [s.replace(old, new)] for one-character [old] and [new].  The three
    characters the program replaces are ASCII, so replacing bytes of the
    UTF-8 text is replacing characters. *)
Definition replace (old new : ascii) (s : string) : string :=
  str_map (fun c => if Ascii.eqb c old then new else c) s.

Fixpoint occurs (c : ascii) (s : string) : bool :=
  match s with
  | EmptyString => false
  | String c' s' => Ascii.eqb c' c || occurs c s'
  end.

(** ** agents/base.py: BaseAgent._sanitize_mongo_keys *)

Definition sanitize_key (k : string) : string :=
  replace "$" "_" (replace "." "_" k).

Fixpoint _sanitize_mongo_keys (data : value) : value :=
  match data with
  | VDict d =>
      VDict (dict_of_items
               ((fun kv => (sanitize_key kv.1, _sanitize_mongo_keys kv.2)) <$> d))
  | VList l => VList (_sanitize_mongo_keys <$> l)
  | VAtom _ => data
  end.

(** *** Vocabulary for the sanitizer's contract *)

(** A key the persistence layer accepts: no separator, no reserved
    character. *)
Definition key_clean (k : string) : bool :=
  negb (occurs "." k) && negb (occurs "$" k).

Fixpoint keys_clean (v : value) : bool :=
  match v with
  | VDict d => forallb (fun kv => key_clean kv.1 && keys_clean kv.2) d
  | VList l => forallb keys_clean l
  | VAtom _ => true
  end.

(** The rewriting the contract describes: every key replaced by its
    sanitized form, nothing else changed. *)
Fixpoint rewrite_keys (v : value) : value :=
  match v with
  | VDict d => VDict ((fun kv => (sanitize_key kv.1, rewrite_keys kv.2)) <$> d)
  | VList l => VList (rewrite_keys <$> l)
  | VAtom _ => v
  end.

Fixpoint all2 {A : Type} (f : A -> A -> bool) (l l' : list A) : bool :=
  match l, l' with
  | [], [] => true
  | x :: l, y :: l' => f x y && all2 f l l'
  | _, _ => false
  end.

(** Two values have the same structure and the same scalars: mappings
    with as many entries, sequences with as many elements, equal atoms at
    the leaves.  Keys are not compared. *)
Fixpoint same_shape (a b : value) : bool :=
  match a, b with
  | VAtom x, VAtom y => bool_decide (x = y)
  | VList l, VList l' => all2 same_shape l l'
  | VDict d, VDict d' => all2 (fun kv kv' => same_shape kv.2 kv'.2) d d'
  | _, _ => false
  end.

(** No two keys of one mapping are sent to the same key, at any depth. *)
Fixpoint collision_free (v : value) : bool :=
  match v with
  | VDict d =>
      bool_decide (NoDup ((fun kv => sanitize_key kv.1) <$> d))
      && forallb (fun kv => collision_free kv.2) d
  | VList l => forallb collision_free l
  | VAtom _ => true
  end.

(** A value the sanitizer leaves alone: every mapping has distinct,
    clean keys. *)
Inductive normal : value -> Prop :=
| normal_atom a : normal (VAtom a)
| normal_list l : Forall normal l -> normal (VList l)
| normal_dict d :
    NoDup d.*1 ->
    Forall (fun kv => key_clean kv.1 = true /\ normal kv.2) d ->
    normal (VDict d).

(** ** Exceptions and outcomes *)

Inductive exn : Type :=
| KeyError (key : string)
| TypeError (msg : string)
| AttributeError (msg : string)
| ValueError (msg : string)        (* json.JSONDecodeError is one *)
| OSError (msg : string)           (* FileNotFoundError, shutil.Error, ... *)
| StoreError (msg : string)        (* what pymongo raises *)
| GenerationError (msg : string).  (* what the generation service raises *)

(** [str(e)] *)
Definition str_exn (e : exn) : string :=
  match e with
  | KeyError key => "'" ++ key ++ "'"
  | TypeError msg | AttributeError msg | ValueError msg
  | OSError msg | StoreError msg | GenerationError msg => msg
  end.

(** The record a stage commits in place of a verdict. *)
Definition error_record (e : exn) : value := VDict [("error", VStr (str_exn e))].

Inductive outcome (A : Type) : Type :=
| Returned (a : A)
| Raised (e : exn).
Arguments Returned {A} a.
Arguments Raised {A} e.

(** ** The environment of a run

    What the program takes from libraries and services: the digest, the
    generation service (the reply to the [n]-th call depends on the
    prompt), [str.format], the JSON codec, the prompt templates, and for
    the store and the file system a schedule saying which operation
    fails for a reason the model does not describe (network, disk,
    permissions). *)
Record Env : Type := {
  md5_hexdigest : string -> string;
  generate_content : nat -> string -> outcome string;
  str_format : string -> list (string * value) -> outcome string;
  json_loads : string -> outcome value;
  json_dumps : value -> outcome string;
  template_of : string -> string;
  db_fails : nat -> bool;
  fs_fails : nat -> bool
}.

(** ** The world: store, file system, counters *)

Inductive db_op : Type :=
| ReplaceOne (id : value)
| FindOne (id : value)
| UpdateOne (id : value) (sets : list (string * value)).

Record world : Type := {
  coll : gmap string value;      (* the collection, by [_id] *)
  files : gmap string string;    (* regular files, by path *)
  dirs : gset string;            (* directories made by the program *)
  db_log : list db_op;           (* store operations attempted so far *)
  fs_ops : nat;                  (* file operations attempted so far *)
  llm_calls : nat;               (* generation calls made so far *)
  clock : Z
}.

Definition set_coll (f : gmap string value -> gmap string value) (w : world) :=
  {| coll := f (coll w); files := files w; dirs := dirs w; db_log := db_log w;
     fs_ops := fs_ops w; llm_calls := llm_calls w; clock := clock w |}.
Definition set_files (f : gmap string string -> gmap string string) (w : world) :=
  {| coll := coll w; files := f (files w); dirs := dirs w; db_log := db_log w;
     fs_ops := fs_ops w; llm_calls := llm_calls w; clock := clock w |}.
Definition set_dirs (f : gset string -> gset string) (w : world) :=
  {| coll := coll w; files := files w; dirs := f (dirs w); db_log := db_log w;
     fs_ops := fs_ops w; llm_calls := llm_calls w; clock := clock w |}.
Definition log_db (op : db_op) (w : world) :=
  {| coll := coll w; files := files w; dirs := dirs w;
     db_log := db_log w ++ [op];
     fs_ops := fs_ops w; llm_calls := llm_calls w; clock := clock w |}.
Definition count_fs (w : world) :=
  {| coll := coll w; files := files w; dirs := dirs w; db_log := db_log w;
     fs_ops := S (fs_ops w); llm_calls := llm_calls w; clock := clock w |}.
Definition count_llm (w : world) :=
  {| coll := coll w; files := files w; dirs := dirs w; db_log := db_log w;
     fs_ops := fs_ops w; llm_calls := S (llm_calls w); clock := clock w |}.
Definition tick (w : world) :=
  {| coll := coll w; files := files w; dirs := dirs w; db_log := db_log w;
     fs_ops := fs_ops w; llm_calls := llm_calls w; clock := (clock w + 1)%Z |}.

(** ** The monad of effects: state and exceptions *)

Definition M (A : Type) : Type := world -> outcome A * world.

Definition ret {A} (a : A) : M A := fun w => (Returned a, w).
Definition raise {A} (e : exn) : M A := fun w => (Raised e, w).
Definition lift {A} (r : outcome A) : M A := fun w => (r, w).
Definition bind {A B} (m : M A) (k : A -> M B) : M B :=
  fun w =>
    match m w with
    | (Returned a, w') => k a w'
    | (Raised e, w') => (Raised e, w')
    end.
(** [try: body except Exception as e: handler] *)
Definition try_except {A} (body : M A) (handler : exn -> M A) : M A :=
  fun w =>
    match body w with
    | (Returned a, w') => (Returned a, w')
    | (Raised e, w') => handler e w'
    end.
Definition modify (f : world -> world) : M unit := fun w => (Returned tt, f w).

Notation "x <- m ;; k" := (bind m (fun x => k))
  (at level 20, m at level 99, k at level 200, only parsing).
Notation "m ;; k" := (bind m (fun _ => k))
  (at level 100, k at level 200, right associativity, only parsing).

(** ** Python operations on values *)

(** [v[k]] for a string [k] *)
Definition getitem (v : value) (k : string) : outcome value :=
  match v with
  | VDict d =>
      match dict_get d k with
      | Some x => Returned x
      | None => Raised (KeyError k)
      end
  | _ => Raised (TypeError "indices must be integers")
  end.

(** [v.get(k, dflt)] *)
Definition get_default (v : value) (k : string) (dflt : value) : outcome value :=
  match v with
  | VDict d => Returned (default dflt (dict_get d k))
  | _ => Raised (AttributeError "object has no attribute 'get'")
  end.

(** Truth value, as [if not v] tests it. *)
Definition truthy (v : value) : bool :=
  match v with
  | VAtom ANone => false
  | VAtom (ABool b) => b
  | VAtom (AInt n) => negb (Z.eqb n 0)
  | VAtom (AFloat bits) => negb (Z.eqb bits 0) && negb (Z.eqb bits (2 ^ 63))
  | VAtom (AStr s) => negb (String.eqb s "")
  | VAtom (ADatetime _) => true
  | VList l => match l with [] => false | _ => true end
  | VDict d => match d with [] => false | _ => true end
  end.

Fixpoint chars (s : string) : list value :=
  match s with
  | EmptyString => []
  | String c s' => VStr (String c EmptyString) :: chars s'
  end.

(** What [for x in v] visits. *)
Definition iterate (v : value) : outcome (list value) :=
  match v with
  | VList l => Returned l
  | VDict d => Returned ((fun kv => VStr kv.1) <$> d)
  | VAtom (AStr s) => Returned (chars s)
  | VAtom _ => Raised (TypeError "object is not iterable")
  end.

Definition as_str (v : value) (what : exn) : outcome string :=
  match v with
  | VAtom (AStr s) => Returned s
  | _ => Raised what
  end.

Definition is_space (c : ascii) : bool :=
  let n := nat_of_ascii c in
  Nat.eqb n 32 || (Nat.leb 9 n && Nat.leb n 13) || (Nat.leb 28 n && Nat.leb n 31).

Fixpoint lstrip (s : string) : string :=
  match s with
  | EmptyString => EmptyString
  | String c s' => if is_space c then lstrip s' else s
  end.

Fixpoint rstrip (s : string) : string :=
  match s with
  | EmptyString => EmptyString
  | String c s' =>
      match rstrip s' with
      | EmptyString => if is_space c then EmptyString else String c EmptyString
      | t => String c t
      end
  end.

(** [s.strip()], on ASCII white space *)
Definition strip (s : string) : string := rstrip (lstrip s).

(** [text[a:-3]] *)
Definition slice_to_minus3 (a : nat) (text : string) : string :=
  substring a (String.length text - a - 3) text.

Definition lower_ascii (c : ascii) : ascii :=
  let n := nat_of_ascii c in
  if Nat.leb 65 n && Nat.leb n 90 then ascii_of_nat (n + 32) else c.

(** [os.path.basename]: what follows the last slash *)
Fixpoint basename (p : string) : string :=
  match p with
  | EmptyString => EmptyString
  | String c p' =>
      if occurs "/" p' then basename p'
      else if Ascii.eqb c "/" then p' else p
  end.

Fixpoint ends_with_slash (a : string) : bool :=
  match a with
  | EmptyString => false
  | String c EmptyString => Ascii.eqb c "/"
  | String _ a' => ends_with_slash a'
  end.

(** [os.path.join(a, b)] *)
Definition os_path_join (a b : string) : string :=
  if String.prefix "/" b then b
  else if String.eqb a "" then b
  else if ends_with_slash a then a ++ b
  else a ++ "/" ++ b.

(** ** config.py *)
Module Config.
Definition FEED_DIR : string := os_path_join "data" "feed".
Definition RECIPIENTS_DIR : string := os_path_join "data" "recipients".
Definition ERROR_DIR : string := os_path_join "data" "error".
End Config.

(** ** The store: what pymongo does for the calls the program makes *)

(** A dotted field path, cut at the dots. *)
Fixpoint split_dots (s : string) : list string :=
  match s with
  | EmptyString => [EmptyString]
  | String c s' =>
      if Ascii.eqb c "." then EmptyString :: split_dots s'
      else match split_dots s' with
           | seg :: rest => String c seg :: rest
           | [] => [String c EmptyString]
           end
  end.

(** [$set] of one field path: missing embedded documents are created, a
    path through anything but an embedded document is refused. *)
Fixpoint set_path (path : list string) (v : value) (doc : value) : outcome value :=
  match path with
  | [] => Returned v
  | k :: rest =>
      match doc with
      | VDict d =>
          match set_path rest v (default (VDict []) (dict_get d k)) with
          | Returned sub => Returned (VDict (dict_set d k sub))
          | Raised e => Raised e
          end
      | _ => Raised (StoreError "Cannot create field in element")
      end
  end.

Fixpoint apply_sets (sets : list (string * value)) (doc : value) : outcome value :=
  match sets with
  | [] => Returned doc
  | (field, v) :: sets' =>
      match set_path (split_dots field) v doc with
      | Returned doc' => apply_sets sets' doc'
      | Raised e => Raised e
      end
  end.

Section Program.
Variable E : Env.

(** One store operation is attempted: it is logged, and fails if the
    schedule says so. *)
Definition db_attempt (op : db_op) : M unit :=
  fun w =>
    if db_fails E (length (db_log w))
    then (Raised (StoreError "store operation failed"), log_db op w)
    else (Returned tt, log_db op w).

(** [collection.replace_one({"_id": id}, doc, upsert=True)].  The
    program only creates string ids. *)
Definition replace_one (id : value) (doc : value) : M unit :=
  db_attempt (ReplaceOne id) ;;
  match id with
  | VAtom (AStr s) => modify (set_coll (insert s doc))
  | _ => raise (StoreError "unsupported _id")
  end.

(** [collection.find_one({"_id": id})] *)
Definition find_one (id : value) : M value :=
  db_attempt (FindOne id) ;;
  fun w =>
    match id with
    | VAtom (AStr s) => (Returned (default VNone (coll w !! s)), w)
    | _ => (Returned VNone, w)
    end.

(** [collection.update_one({"_id": id}, {"$set": sets})]: no document
    matching is no error. *)
Definition update_one (id : value) (sets : list (string * value)) : M unit :=
  db_attempt (UpdateOne id sets) ;;
  fun w =>
    match id with
    | VAtom (AStr s) =>
        match coll w !! s with
        | Some doc =>
            match apply_sets sets doc with
            | Returned doc' => (Returned tt, set_coll (insert s doc') w)
            | Raised e => (Raised e, w)
            end
        | None => (Returned tt, w)
        end
    | _ => (Returned tt, w)
    end.

(** *** database.py *)

Definition save_news_item (news_item : value) : M unit :=
  id <- lift (getitem news_item "_id") ;;
  replace_one id news_item.

Definition get_news_item (news_id : value) : M value :=
  find_one news_id.

(** *** The file system *)

Definition fs_attempt : M unit :=
  fun w =>
    if fs_fails E (fs_ops w)
    then (Raised (OSError "file operation failed"), count_fs w)
    else (Returned tt, count_fs w).

(** [open(path, 'r')] and [f.read()] *)
Definition read_text (path : string) : M string :=
  fs_attempt ;;
  fun w =>
    match files w !! path with
    | Some c => (Returned c, w)
    | None => (Raised (OSError "No such file or directory"), w)
    end.

(** [os.makedirs(dir, exist_ok=True)] *)
Definition makedirs (dir : string) : M unit :=
  fs_attempt ;; modify (set_dirs (fun ds => {[dir]} ∪ ds)).

(** [shutil.copy2(src, dst)] *)
Definition copy2 (src dst : string) : M unit :=
  fs_attempt ;;
  fun w =>
    match files w !! src with
    | Some c =>
        if String.eqb src dst
        then (Raised (OSError "are the same file"), w)
        else (Returned tt, set_files (insert dst c) w)
    | None => (Raised (OSError "No such file or directory"), w)
    end.

(** [with open(path, 'w') as f: json.dump(data, f, indent=2)]: opening
    truncates the file; a value that does not serialize leaves it so. *)
Definition dump_json (path : string) (data : value) : M unit :=
  fs_attempt ;;
  modify (set_files (insert path "")) ;;
  text <- lift (json_dumps E data) ;;
  modify (set_files (insert path text)).

(** [shutil.move(src, dst)] *)
Definition move (src dst : string) : M unit :=
  fs_attempt ;;
  fun w =>
    match files w !! src with
    | Some c => (Returned tt, set_files (fun fs => <[dst := c]> (delete src fs)) w)
    | None => (Raised (OSError "No such file or directory"), w)
    end.

(** [os.remove(path)] *)
Definition remove (path : string) : M unit :=
  fs_attempt ;;
  fun w =>
    match files w !! path with
    | Some _ => (Returned tt, set_files (delete path) w)
    | None => (Raised (OSError "No such file or directory"), w)
    end.

(** [datetime.now()] *)
Definition datetime_now : M value :=
  fun w => (Returned (VAtom (ADatetime (clock w))), tick w).

(** *** agents/base.py *)

Inductive agent_class : Type := Classifier | Finalizer.

Record agent : Type := {
  agent_name : string;
  prompt_template : string;
  class : agent_class
}.

(** [self.model.generate_content(prompt)] and [response.text] *)
Definition llm_generate (prompt : string) : M string :=
  fun w => (generate_content E (llm_calls w) prompt, count_llm w).

(** The clean-up of a reply wrapped in a fenced code block. *)
Definition unfence (text : string) : string :=
  if String.prefix "```json" text then slice_to_minus3 7 text
  else if String.prefix "```" text then slice_to_minus3 3 text
  else text.

(** The statements both [try] blocks share: call the service, strip
    the reply, remove the fence, parse. *)
Definition generate_json (prompt : string) : M value :=
  reply <- llm_generate prompt ;;
  lift (json_loads E (unfence (strip reply))).

(** The [try] block of [_get_llm_response]. *)
Definition ask (self : agent) (content : value) : M value :=
  prompt <- lift (str_format E (prompt_template self) [("content", content)]) ;;
  generate_json prompt.

Definition _get_llm_response (self : agent) (content : value) : M value :=
  try_except (ask self content) (fun e => ret (error_record e)).

(** *** agents/classifiers.py, agents/finalizer.py: execute *)

Definition classifier_execute (self : agent) (news_item : value) : M value :=
  content <- lift (getitem news_item "content") ;;
  _get_llm_response self content.

Definition finalizer_execute (self : agent) (news_item : value) : M value :=
  agents_results <- lift (get_default news_item "agents_results" (VDict [])) ;;
  content <- lift (getitem news_item "content") ;;
  dumped <- lift (json_dumps E agents_results) ;;
  full_prompt <- lift (str_format E (prompt_template self)
                         [("content", content); ("agents_results", VStr dumped)]) ;;
  try_except
    (generate_json full_prompt)
    (fun e => ret (VDict [("is_safe", VBool false);
                          ("final_recipients", VList []);
                          ("error", VStr (str_exn e))])).

Definition execute (self : agent) (news_item : value) : M value :=
  match class self with
  | Classifier => classifier_execute self news_item
  | Finalizer => finalizer_execute self news_item
  end.

(** [BaseAgent.process]; the log line at its start reads
    [news_item['_id']]. *)
Definition process (self : agent) (news_item : value) : M value :=
  lift (getitem news_item "_id") ;;
  result <- execute self news_item ;;
  let cleaned_result := _sanitize_mongo_keys result in
  id <- lift (getitem news_item "_id") ;;
  update_one id [("agents_results." ++ agent_name self, cleaned_result)] ;;
  ret cleaned_result.

Definition UrgencyAgent : agent :=
  {| agent_name := "urgency_agent";
     prompt_template := template_of E "urgency_agent"; class := Classifier |}.
Definition SensitivityAgent : agent :=
  {| agent_name := "sensitivity_agent";
     prompt_template := template_of E "sensitivity_agent"; class := Classifier |}.
Definition TopicAgent : agent :=
  {| agent_name := "topic_agent";
     prompt_template := template_of E "topic_agent"; class := Classifier |}.
Definition TypeAgent : agent :=
  {| agent_name := "type_agent";
     prompt_template := template_of E "type_agent"; class := Classifier |}.
Definition RecipientAgent : agent :=
  {| agent_name := "recipient_agent";
     prompt_template := template_of E "recipient_agent"; class := Classifier |}.
Definition FinalizerAgent : agent :=
  {| agent_name := "finalizer_agent";
     prompt_template := template_of E "finalizer_agent"; class := Finalizer |}.

(** *** orchestrator.py *)

Definition agents : list agent :=
  [UrgencyAgent; SensitivityAgent; TopicAgent; TypeAgent; RecipientAgent].

Definition _slugify (text : value) : outcome string :=
  match text with
  | VAtom (AStr s) =>
      Returned (replace "/" "-" (replace " " "_" (str_map lower_ascii s)))
  | _ => Raised (AttributeError "object has no attribute 'lower'")
  end.

Definition _move_to_error (file_path : string) : M unit :=
  let dest := os_path_join Config.ERROR_DIR (basename file_path) in
  move file_path dest.

(** The body of the loop over recipients. *)
Definition deliver (news_item : value) (original_file_path : string)
    (metadata : value) (recipient : value) : M unit :=
  slug <- lift (_slugify recipient) ;;
  let recipient_dir := os_path_join Config.RECIPIENTS_DIR slug in
  makedirs recipient_dir ;;
  filename <- lift (getitem news_item "filename") ;;
  filename <- lift (as_str filename (TypeError "expected str")) ;;
  let dest_file := os_path_join recipient_dir filename in
  copy2 original_file_path dest_file ;;
  let meta_filename := filename ++ ".json" in
  dump_json (os_path_join recipient_dir meta_filename) metadata.

Fixpoint deliver_all (news_item : value) (original_file_path : string)
    (metadata : value) (recipients : list value) : M unit :=
  match recipients with
  | [] => ret tt
  | recipient :: rest =>
      deliver news_item original_file_path metadata recipient ;;
      deliver_all news_item original_file_path metadata rest
  end.

Definition _distribute (news_item : value) (original_file_path : string) : M unit :=
  final <- lift (get_default news_item "final_decision" (VDict [])) ;;
  recipients <- lift (get_default final "final_recipients" (VList [])) ;;
  if negb (truthy recipients) then
    lift (getitem news_item "filename") ;;
    _move_to_error original_file_path
  else
    filename <- lift (getitem news_item "filename") ;;
    id <- lift (getitem news_item "_id") ;;
    let metadata :=
      VDict [("original_filename", filename); ("id", id); ("metadata", final)] in
    todo <- lift (iterate recipients) ;;
    deliver_all news_item original_file_path metadata todo ;;
    remove original_file_path.

(** The loop over the classification agents; [news_item] is the local
    variable, refreshed after each agent that did not raise. *)
Fixpoint run_agents (file_hash : string) (todo : list agent) (news_item : value)
  : M value :=
  match todo with
  | [] => ret news_item
  | agent :: rest =>
      news_item' <- try_except
                      (process agent news_item ;;
                       get_news_item (VStr file_hash))
                      (fun _ => ret news_item) ;;
      run_agents file_hash rest news_item'
  end.

(** The [try] block around the finalizer and its handler. *)
Definition finalize (file_hash : string) (news_item : value) (file_path : string)
  : M unit :=
  try_except
    (final_result <- process FinalizerAgent news_item ;;
     update_one (VStr file_hash)
       [("final_decision", final_result); ("status", VStr "completed")] ;;
     news_item <- get_news_item (VStr file_hash) ;;
     _distribute news_item file_path)
    (fun e =>
       update_one (VStr file_hash)
         [("status", VStr "error"); ("error", VStr (str_exn e))] ;;
       _move_to_error file_path).

Definition new_news_item (file_hash filename content : string) (created_at : value)
  : value :=
  VDict [("_id", VStr file_hash);
         ("filename", VStr filename);
         ("content", VStr content);
         ("status", VStr "processing");
         ("agents_results", VDict []);
         ("created_at", created_at)].

Definition process_file (file_path : string) : M unit :=
  read <- try_except (content <- read_text file_path ;; ret (Some content))
                     (fun _ => ret None) ;;
  match read with
  | None => ret tt
  | Some content =>
      let filename := basename file_path in
      let file_hash := md5_hexdigest E content in
      created_at <- datetime_now ;;
      let news_item := new_news_item file_hash filename content created_at in
      save_news_item news_item ;;
      news_item <- run_agents file_hash agents news_item ;;
      finalize file_hash news_item file_path
  end.

End Program.

(** ** Vocabulary of the specification *)

(** A top-level field of a stored document. *)
Definition field (doc : value) (k : string) : option value :=
  match doc with
  | VDict d => dict_get d k
  | _ => None
  end.

(** [stage_results[name]] of a stored document. *)
Definition stage_result (doc : value) (name : string) : option value :=
  match field doc "agents_results" with
  | Some (VDict results) => dict_get results name
  | _ => None
  end.

(** Completed or quarantined. *)
Definition terminal (doc : value) : bool :=
  match field doc "status" with
  | Some (VAtom (AStr s)) => String.eqb s "completed" || String.eqb s "error"
  | _ => false
  end.

Fixpoint strings_of (l : list value) : list string :=
  match l with
  | [] => []
  | VAtom (AStr s) :: l' => s :: strings_of l'
  | _ :: l' => strings_of l'
  end.

(** The recipients named by the committed decision. *)
Definition committed_recipients (doc : value) : list string :=
  match field doc "final_decision" with
  | Some (VDict final) =>
      match dict_get final "final_recipients" with
      | Some (VList l) => strings_of l
      | _ => []
      end
  | _ => []
  end.

(** The decision carries a non-empty note. *)
Definition justified (doc : value) : bool :=
  match field doc "final_decision" with
  | Some (VDict final) =>
      match dict_get final "notes" with
      | Some (VAtom (AStr s)) => negb (String.eqb s "")
      | _ => false
      end
  | _ => false
  end.

Definition sensitivity_score (doc : value) : option Z :=
  match stage_result doc "sensitivity_agent" with
  | Some (VDict verdict) =>
      match dict_get verdict "score" with
      | Some (VAtom (AInt n)) => Some n
      | _ => None
      end
  | _ => None
  end.

(** Where a recipient's copies go. *)
Definition slug_of (recipient : string) : string :=
  replace "/" "-" (replace " " "_" (str_map lower_ascii recipient)).
Definition recipient_dir_of (recipient : string) : string :=
  os_path_join Config.RECIPIENTS_DIR (slug_of recipient).
Definition delivery_file (recipient filename : string) : string :=
  os_path_join (recipient_dir_of recipient) filename.
Definition metadata_file (recipient filename : string) : string :=
  os_path_join (recipient_dir_of recipient) (filename ++ ".json").
Definition error_file (file_path : string) : string :=
  os_path_join Config.ERROR_DIR (basename file_path).

(** The files a fan-out to [names] writes: the copies, the records. *)
Definition deliveries (filename : string) (names : list string) : list string :=
  (fun r => delivery_file r filename) <$> names.
Definition records (filename : string) (names : list string) : list string :=
  (fun r => metadata_file r filename) <$> names.

(** What a classification stage may commit: the record of a fault, or a
    parsed verdict, sanitized. *)
Definition verdict_or_error (E : Env) (record : value) : Prop :=
  (exists e, record = error_record e) \/
  (exists text v, json_loads E text = Returned v /\
                  record = _sanitize_mongo_keys v).

(** The document under [id] is being processed: it is the local
    [news_item], it has its id and the content, and a mapping of stage
    results. *)
Definition in_progress (id : string) (content : value) (news_item : value)
    (w : world) : Prop :=
  coll w !! id = Some news_item /\
  field news_item "_id" = Some (VStr id) /\
  field news_item "content" = Some content /\
  exists results, field news_item "agents_results" = Some (VDict results).

(** *** The claims the code does not meet, as they are stated *)

(** Re-ingesting bytes whose document is terminal is a no-op: no stage
    is re-run, the store and the files stay as they are. *)
Definition reingestion_is_noop (E : Env) (w : world) (file_path : string) : Prop :=
  forall content doc,
    files w !! file_path = Some content ->
    coll w !! md5_hexdigest E content = Some doc ->
    terminal doc = true ->
    let w' := (process_file E file_path w).2 in
    llm_calls w' = llm_calls w /\ coll w' = coll w /\ files w' = files w.

(** The source leaves the ingestion location only once every recipient
    of the committed decision has its copy. *)
Definition removed_only_after_fan_out (E : Env) (w : world) (file_path : string)
  : Prop :=
  forall content doc recipient,
    files w !! file_path = Some content ->
    let w' := (process_file E file_path w).2 in
    files w' !! file_path = None ->
    coll w' !! md5_hexdigest E content = Some doc ->
    recipient ∈ committed_recipients doc ->
    files w' !! delivery_file recipient (basename file_path) = Some content.

(** A document whose sensitivity score reaches the threshold is not
    committed with the unrestricted recipient, unless justified. *)
Definition safety_override (threshold : Z) (E : Env) (w : world)
    (file_path : string) : Prop :=
  forall content doc score,
    files w !! file_path = Some content ->
    coll (process_file E file_path w).2 !! md5_hexdigest E content = Some doc ->
    sensitivity_score doc = Some score ->
    (threshold <= score)%Z ->
    "All Employees" ∉ committed_recipients doc \/ justified doc = true.

(** ** Relations between worlds, and rules for the monad *)

Definition triple {A} (P : world -> Prop) (m : M A)
    (Q : outcome A -> world -> Prop) : Prop :=
  forall w, P w -> Q (m w).1 (m w).2.

Definition keeps {A} (R : relation world) (m : M A) : Prop :=
  forall w, R w (m w).2.

(** At most [n] more store operations are attempted. *)
Definition attempts {A} (m : M A) (n : nat) : Prop :=
  forall w, length (db_log (m w).2) <= length (db_log w) + n.

(** The store is as it was. *)
Definition same_store (w w' : world) : Prop :=
  coll w' = coll w /\ db_log w' = db_log w.

(** The stored source artifact is as it was. *)
Definition same_file (path : string) (w w' : world) : Prop :=
  files w' !! path = files w !! path.

(** Every stored document keeps the entry of stage [name] and its
    content. *)
Definition same_namespace (name : string) (w w' : world) : Prop :=
  forall id doc,
    coll w !! id = Some doc ->
    exists doc',
      coll w' !! id = Some doc' /\
      stage_result doc' name = stage_result doc name /\
      field doc' "content" = field doc "content".

(** Every document but the one under [id] is as it was. *)
Definition same_others (id : string) (w w' : world) : Prop :=
  forall k, k <> id -> coll w' !! k = coll w !! k.

(** There is a document under [id]; it carries [id] as its [_id] and
    has the given content. *)
Definition stored (id : string) (content : value) (w : world) : Prop :=
  exists doc,
    coll w !! id = Some doc /\
    field doc "_id" = Some (VStr id) /\
    field doc "content" = Some content.

(** The documents are as they were. *)
Definition same_docs (w w' : world) : Prop := coll w' = coll w.

(** The document under [id] carries the decision. *)
Definition decided (id : string) (decision : value) (w : world) : Prop :=
  exists doc, coll w !! id = Some doc /\ field doc "final_decision" = Some decision.

(** What ingestion maintains, from the world [w0] it started in. *)
Definition upsert_inv (id : string) (content : value) (w0 w : world) : Prop :=
  same_others id w0 w /\ stored id content w.

(** The local [news_item] names the document under [id], if it names
    any. *)
Definition targets (id : string) (news_item : value) : Prop :=
  forall v, getitem news_item "_id" = Returned v -> v = VStr id.

(** A field path that leaves [_id] and [content] alone. *)
Definition spares_identity (field_path : string) : Prop :=
  exists k rest,
    split_dots field_path = k :: rest /\ k <> "_id" /\ k <> "content".

(** ** Fixtures: small environments and worlds to run the program on *)
Module Fixtures.

Definition toy_loads (text : string) : outcome value :=
  if String.eqb text "urgency" then
    Returned (VDict [("level", VStr "Immediate")])
  else if String.eqb text "sensitivity" then
    Returned (VDict [("score", VInt 10); ("flags", VList [VStr "confidential"])])
  else if String.eqb text "recipient" then
    Returned (VDict [("recipients", VList [VStr "Engineering"])])
  else if String.eqb text "final-engineering" then
    Returned (VDict [("is_safe", VBool true);
                     ("final_recipients", VList [VStr "Engineering"]);
                     ("final_urgency", VStr "Immediate")])
  else if String.eqb text "final-everyone" then
    Returned (VDict [("is_safe", VBool true);
                     ("final_recipients", VList [VStr "All Employees"])])
  else if String.eqb text "final-two" then
    Returned (VDict [("is_safe", VBool true);
                     ("final_recipients", VList [VStr "Legal"; VStr "HR"])])
  else Raised (ValueError "Expecting value").

Definition toy_env (replies : nat -> outcome string)
    (db_schedule fs_schedule : nat -> bool) : Env :=
  {| md5_hexdigest := fun content => "md5-" ++ content;
     generate_content := fun n _ => replies n;
     str_format := fun template _ => Returned template;
     json_loads := toy_loads;
     json_dumps := fun _ => Returned "{json}";
     template_of := fun name => name;
     db_fails := db_schedule;
     fs_fails := fs_schedule |}.

Definition never : nat -> bool := fun _ => false.
Definition only (k : nat) : nat -> bool := fun n => Nat.eqb n k.

Definition classifier_replies (n : nat) : outcome string :=
  match n with
  | 0 => Returned "  urgency  "
  | 1 => Returned "```jsonsensitivity```"
  | 4 => Returned "```recipient```"
  | _ => Returned "I cannot answer"
  end.

(** The scenario of the specification. *)
Definition E_ok : Env :=
  toy_env (fun n => match n mod 6 with
                    | 5 => Returned "final-engineering"
                    | k => classifier_replies k
                    end) never never.

(** The finalizer names everyone although the score is 10. *)
Definition E_everyone : Env :=
  toy_env (fun n => match n with
                    | 5 => Returned "final-everyone"
                    | k => classifier_replies k
                    end) never never.

(** The generation service fails for the finalizer. *)
Definition E_finalizer_down : Env :=
  toy_env (fun n => match n with
                    | 5 => Raised (GenerationError "quota exceeded")
                    | k => classifier_replies k
                    end) never never.

(** Two recipients, and the copy for the second one fails: file
    operation 0 reads the source, 1 to 3 serve the first recipient. *)
Definition E_disk_full : Env :=
  toy_env (fun n => match n with
                    | 5 => Returned "final-two"
                    | k => classifier_replies k
                    end) never (only 5).

(** Two recipients, nothing fails. *)
Definition E_two : Env :=
  toy_env (fun n => match n with
                    | 5 => Returned "final-two"
                    | k => classifier_replies k
                    end) never never.

(** The store refuses its first operation. *)
Definition E_store_down : Env :=
  toy_env classifier_replies (only 0) never.

Definition feed_file : string := "data/feed/a.txt".
Definition h1 : string := "md5-URGENT: outage".

Definition w0 : world :=
  {| coll := ∅;
     files := {[feed_file := "URGENT: outage"]};
     dirs := ∅; db_log := []; fs_ops := 0; llm_calls := 0; clock := 0 |}.

(** After a first ingestion under [E_ok], the same bytes arrive again
    under the same name. *)
Definition w_again : world :=
  set_files (insert feed_file "URGENT: outage") (process_file E_ok feed_file w0).2.

(** The document under [h1], or [None]. *)
Definition doc_of (w : world) : value := default VNone (coll w !! h1).

(** The document as [process_file] creates it, and the store holding
    it. *)
Definition fresh_item : value :=
  new_news_item h1 "a.txt" "URGENT: outage" (VAtom (ADatetime 0)).
Definition w_saved : world :=
  set_coll (insert h1 fresh_item) w0.

(** The state in which the finalizer starts under an environment: the
    document saved and the five stages run. *)
Definition at_finalizer (E : Env) : outcome value * world :=
  run_agents E h1 (agents E) fresh_item w_saved.
Definition item_at_finalizer (E : Env) : value :=
  match (at_finalizer E).1 with
  | Returned item => item
  | Raised _ => VNone
  end.

(** The steps of the finalizer's [try] block, one after the other. *)
Definition after_process (E : Env) : outcome value * world :=
  process E (FinalizerAgent E) (item_at_finalizer E) (at_finalizer E).2.
Definition final_result_of (E : Env) : value :=
  match (after_process E).1 with
  | Returned r => r
  | Raised _ => VNone
  end.
Definition after_commit (E : Env) : world :=
  (update_one E (VStr h1)
     [("final_decision", final_result_of E); ("status", VStr "completed")]
     (after_process E).2).2.
Definition after_reload (E : Env) : outcome value * world :=
  get_news_item E (VStr h1) (after_commit E).
Definition reloaded (E : Env) : value :=
  match (after_reload E).1 with
  | Returned item => item
  | Raised _ => VNone
  end.

Definition results_at_finalizer (E : Env) : list (string * value) :=
  match field (item_at_finalizer E) "agents_results" with
  | Some (VDict results) => results
  | _ => []
  end.

(** The generation service is down for every stage. *)
Definition E_silent : Env :=
  toy_env (fun _ => Raised (GenerationError "service unavailable")) never never.

(** Two keys that the sanitizer sends to the same key. *)
Definition colliding : value :=
  VDict [("a.b", VInt 1); ("a_b", VInt 2)].

(** A nested record with keys to rewrite and none colliding. *)
Definition nested : value :=
  VDict [("$set", VList [VDict [("a.b", VInt 1)]; VStr "x.y"]);
         ("plain", VDict [("c.d$", VNone)])].

End Fixtures.

(** * Proofs *)

#[local] Open Scope list_scope.

(** * The key sanitizer *)

Lemma replace_cons old new c s :
  replace old new (String c s)
  = String (if Ascii.eqb c old then new else c) (replace old new s).
Proof. reflexivity. Qed.

Lemma replace_absent c new s : occurs c s = false -> replace c new s = s.
Proof.
  induction s as [|c' s IH]; [done|].
  rewrite replace_cons. simpl.
  intros [Hc Hs]%orb_false_iff. rewrite Hc. f_equal. by apply IH.
Qed.

Lemma occurs_replace_eq old new s :
  old <> new -> occurs old (replace old new s) = false.
Proof.
  intros Hne. induction s as [|c' s IH]; [done|].
  rewrite replace_cons. simpl.
  rewrite IH, orb_false_r.
  destruct (Ascii.eqb_spec c' old) as [-> |Hc].
  - apply Ascii.eqb_neq. congruence.
  - by apply Ascii.eqb_neq.
Qed.

Lemma occurs_replace_ne c old new s :
  c <> new -> occurs c s = false -> occurs c (replace old new s) = false.
Proof.
  intros Hne. induction s as [|c' s IH]; [done|].
  rewrite replace_cons. simpl.
  intros [Hc Hs]%orb_false_iff. rewrite (IH Hs), orb_false_r.
  destruct (Ascii.eqb c' old); [|done].
  apply Ascii.eqb_neq. congruence.
Qed.

Lemma sanitize_key_clean k : key_clean (sanitize_key k) = true.
Proof.
  unfold key_clean, sanitize_key.
  rewrite occurs_replace_ne, occurs_replace_eq by (done || apply occurs_replace_eq; done).
  done.
Qed.

Lemma sanitize_key_fixed k : key_clean k = true -> sanitize_key k = k.
Proof.
  unfold key_clean, sanitize_key.
  intros [H1 H2]%andb_true_iff.
  apply negb_true_iff in H1, H2.
  rewrite (replace_absent _ _ _ H1). by apply replace_absent.
Qed.

Lemma dict_set_fresh d k v : k ∉ d.*1 -> dict_set d k v = d ++ [(k, v)].
Proof.
  induction d as [|[k' v'] d IH]; simpl; [done|].
  intros Hk. apply not_elem_of_cons in Hk as [Hne Hk].
  destruct (String.eqb_spec k' k) as [-> |_]; [done|].
  by rewrite IH.
Qed.

Lemma dict_set_keys d k v :
  (dict_set d k v).*1 = if bool_decide (k ∈ d.*1) then d.*1 else d.*1 ++ [k].
Proof.
  induction d as [|[k' v'] d IH]; [done|].
  cbn [dict_set]. destruct (String.eqb_spec k' k) as [-> |Hne];
    rewrite !fmap_cons; cbn [fst].
  - rewrite bool_decide_eq_true_2 by (by left). done.
  - rewrite IH. destruct (decide (k ∈ d.*1)) as [Hin|Hout].
    + rewrite !bool_decide_eq_true_2; [done|by right|done].
    + rewrite !bool_decide_eq_false_2; [done| |done].
      intros [?|?]%elem_of_cons; congruence.
Qed.

Lemma dict_set_NoDup d k v : NoDup d.*1 -> NoDup (dict_set d k v).*1.
Proof.
  intros Hd. rewrite dict_set_keys. case_bool_decide as Hin; [done|].
  apply NoDup_app. split_and!; [done| |apply NoDup_singleton].
  intros x Hx Hk%list_elem_of_singleton. by subst.
Qed.

Lemma dict_set_elem d k v kv :
  kv ∈ dict_set d k v -> kv ∈ d \/ kv = (k, v).
Proof.
  induction d as [|[k' v'] d IH]; simpl.
  - intros ->%list_elem_of_singleton. by right.
  - destruct (String.eqb_spec k' k) as [-> |Hne].
    + intros [-> |?]%elem_of_cons; [by right|left; by apply elem_of_cons; right].
    + intros [-> |H]%elem_of_cons; [left; apply elem_of_cons; by left|].
      destruct (IH H) as [?|?]; [left; apply elem_of_cons; by right|by right].
Qed.

Abbreviation dict_step := (fun (acc : list (string * value)) (kv : string * value) => dict_set acc kv.1 kv.2).

Lemma dict_fold_NoDup items acc :
  NoDup acc.*1 -> NoDup (fold_left dict_step items acc).*1.
Proof.
  revert acc. induction items as [|kv items IH]; simpl; [done|].
  intros acc Hacc. apply IH. by apply dict_set_NoDup.
Qed.

Lemma dict_fold_elem items acc kv :
  kv ∈ fold_left dict_step items acc -> kv ∈ acc \/ kv ∈ items.
Proof.
  revert acc. induction items as [|[k v] items IH]; simpl; [by left|].
  intros acc [H|H]%IH.
  - apply dict_set_elem in H as [?| ->]; [by left|right; apply elem_of_cons; by left].
  - right. apply elem_of_cons; by right.
Qed.

Lemma dict_fold_fresh items acc :
  NoDup (acc.*1 ++ items.*1) -> fold_left dict_step items acc = acc ++ items.
Proof.
  revert acc. induction items as [|[k v] items IH]; simpl; intros acc Hnd.
  - by rewrite app_nil_r.
  - rewrite dict_set_fresh.
    + rewrite IH; [by rewrite <- app_assoc|].
      rewrite fmap_app. simpl. by rewrite <- app_assoc.
    + apply NoDup_app in Hnd as (_ & Hdisj & _).
      intros Hin. apply (Hdisj k Hin). apply elem_of_cons; by left.
Qed.

Lemma dict_of_items_NoDup items : NoDup (dict_of_items items).*1.
Proof. apply dict_fold_NoDup. apply NoDup_nil_2. Qed.

Lemma dict_of_items_elem items kv : kv ∈ dict_of_items items -> kv ∈ items.
Proof.
  intros [H|H]%dict_fold_elem; [|done]. by apply elem_of_nil in H.
Qed.

Lemma dict_of_items_fresh items : NoDup items.*1 -> dict_of_items items = items.
Proof. intros H. unfold dict_of_items. by rewrite dict_fold_fresh. Qed.

Lemma sanitize_normal v : normal (_sanitize_mongo_keys v).
Proof.
  induction v as [a|l IH|d IH] using value_nested_ind; simpl.
  - constructor.
  - constructor. apply Forall_fmap. eapply Forall_impl; [exact IH|done].
  - constructor; [apply dict_of_items_NoDup|].
    apply Forall_forall. intros kv Hkv%dict_of_items_elem.
    apply list_elem_of_fmap in Hkv as (kv0 & -> & Hin). simpl.
    split; [apply sanitize_key_clean|].
    rewrite Forall_forall in IH. by apply IH.
Qed.

Lemma sanitize_fixed v : normal v -> _sanitize_mongo_keys v = v.
Proof.
  induction v as [a|l IH|d IH] using value_nested_ind; simpl; [done| |].
  - inversion 1 as [|l' Hl|]; subst. f_equal.
    rewrite <- (list_fmap_id l) at 2. apply list_fmap_ext.
    intros i x Hx. rewrite Forall_forall in IH, Hl.
    apply list_elem_of_lookup_2 in Hx. auto.
  - inversion 1 as [| |d' Hnd Hd]; subst. f_equal.
    assert (Hmap : (fun kv => (sanitize_key kv.1, _sanitize_mongo_keys kv.2)) <$> d = d).
    { rewrite <- (list_fmap_id d) at 2. apply list_fmap_ext.
      intros i [k x] Hx. rewrite Forall_forall in IH, Hd.
      apply list_elem_of_lookup_2 in Hx.
      destruct (Hd _ Hx) as [Hk Hn]. specialize (IH _ Hx Hn). simpl in *.
      by rewrite (sanitize_key_fixed _ Hk), IH. }
    rewrite Hmap. by apply dict_of_items_fresh.
Qed.

(** C10.  Sanitizing twice is sanitizing once: the keys of a sanitized
    record hold neither the separator nor the reserved character, and
    no two of them are equal, so a second pass rewrites no key and
    merges no entries. *)
Theorem sanitize_idempotent (record : value) :
  _sanitize_mongo_keys (_sanitize_mongo_keys record) = _sanitize_mongo_keys record.
Proof. apply sanitize_fixed, sanitize_normal. Qed.

Lemma normal_keys_clean v : normal v -> keys_clean v = true.
Proof.
  induction v as [a|l IH|d IH] using value_nested_ind; simpl; [done| |].
  - inversion 1 as [|l' Hl|]; subst. apply forallb_forall.
    intros x Hx%list_elem_of_In. rewrite Forall_forall in IH, Hl. auto.
  - inversion 1 as [| |d' Hnd Hd]; subst. apply forallb_forall.
    intros x Hx%list_elem_of_In. rewrite Forall_forall in IH, Hd.
    destruct (Hd _ Hx) as [-> Hn]. simpl. auto.
Qed.

Lemma sanitize_rewrite v :
  collision_free v = true -> _sanitize_mongo_keys v = rewrite_keys v.
Proof.
  induction v as [a|l IH|d IH] using value_nested_ind; simpl; [done| |].
  - intros Hl. f_equal. apply list_fmap_ext. intros i x Hx.
    apply list_elem_of_lookup_2 in Hx. rewrite Forall_forall in IH.
    apply IH; [done|]. rewrite forallb_forall in Hl. apply Hl.
    by apply list_elem_of_In.
  - intros [Hnd Hd]%andb_true_iff. apply bool_decide_eq_true in Hnd. f_equal.
    assert (Hmap : (fun kv => (sanitize_key kv.1, _sanitize_mongo_keys kv.2)) <$> d
                   = (fun kv => (sanitize_key kv.1, rewrite_keys kv.2)) <$> d).
    { apply list_fmap_ext. intros i x Hx.
      apply list_elem_of_lookup_2 in Hx. rewrite Forall_forall in IH.
      f_equal. apply IH; [done|]. rewrite forallb_forall in Hd.
      apply (Hd x). by apply list_elem_of_In. }
    rewrite Hmap. apply dict_of_items_fresh.
    rewrite <- list_fmap_compose. exact Hnd.
Qed.

Lemma same_shape_rewrite v : same_shape v (rewrite_keys v) = true.
Proof.
  induction v as [a|l IH|d IH] using value_nested_ind; simpl.
  - by apply bool_decide_eq_true.
  - induction IH as [|x l Hx _ IHl]; [done|].
    rewrite fmap_cons. cbn [all2]. by rewrite Hx, IHl.
  - induction IH as [|x l Hx _ IHl]; [done|].
    rewrite fmap_cons. cbn [all2 snd]. by rewrite Hx, IHl.
Qed.

(** * Rules for the monad *)

Section rules.
Context {A B : Type}.

Lemma run_bind (m : M A) (k : A -> M B) w :
  bind m k w = match m w with
               | (Returned a, w') => k a w'
               | (Raised e, w') => (Raised e, w')
               end.
Proof. reflexivity. Qed.

Lemma run_bind_returned (m : M A) (k : A -> M B) w a w' :
  m w = (Returned a, w') -> bind m k w = k a w'.
Proof. intros H. by rewrite run_bind, H. Qed.

Lemma run_bind_raised (m : M A) (k : A -> M B) w e w' :
  m w = (Raised e, w') -> bind m k w = (Raised e, w').
Proof. intros H. by rewrite run_bind, H. Qed.

Lemma run_try_returned (body : M A) handler w a w' :
  body w = (Returned a, w') -> try_except body handler w = (Returned a, w').
Proof. intros H. unfold try_except. by rewrite H. Qed.

Lemma run_try_raised (body : M A) handler w e w' :
  body w = (Raised e, w') -> try_except body handler w = handler e w'.
Proof. intros H. unfold try_except. by rewrite H. Qed.

Lemma triple_ret P (a : A) (Q : outcome A -> world -> Prop) :
  (forall w, P w -> Q (Returned a) w) -> triple P (ret a) Q.
Proof. intros H w Hw. by apply H. Qed.

Lemma triple_lift P (r : outcome A) (Q : outcome A -> world -> Prop) :
  (forall w, P w -> Q r w) -> triple P (lift r) Q.
Proof. intros H w Hw. by apply H. Qed.

Lemma triple_bind P (m : M A) (k : A -> M B) Q1 (Q : outcome B -> world -> Prop) :
  triple P m Q1 ->
  (forall e w, Q1 (Raised e) w -> Q (Raised e) w) ->
  (forall a, triple (Q1 (Returned a)) (k a) Q) ->
  triple P (bind m k) Q.
Proof.
  intros Hm He Hk w Hw. specialize (Hm w Hw). rewrite run_bind.
  destruct (m w) as [[a|e] w1]; simpl in *.
  - by apply Hk.
  - by apply He.
Qed.

Lemma triple_try P (body : M A) (handler : exn -> M A) Q1
    (Q : outcome A -> world -> Prop) :
  triple P body Q1 ->
  (forall a w, Q1 (Returned a) w -> Q (Returned a) w) ->
  (forall e, triple (Q1 (Raised e)) (handler e) Q) ->
  triple P (try_except body handler) Q.
Proof.
  intros Hm Hr Hh w Hw. specialize (Hm w Hw). unfold try_except.
  destruct (body w) as [[a|e] w1]; simpl in *.
  - by apply Hr.
  - by apply Hh.
Qed.

Lemma triple_weaken (P P' : world -> Prop) (m : M A)
    (Q Q' : outcome A -> world -> Prop) :
  triple P' m Q' ->
  (forall w, P w -> P' w) ->
  (forall r w, Q' r w -> Q r w) ->
  triple P m Q.
Proof. intros Hm HP HQ w Hw. apply HQ, Hm, HP, Hw. Qed.
End rules.

Section keeps_rules.
Context (R : relation world) `{!PreOrder R}.
Context {A B : Type}.

Lemma keeps_ret (a : A) : keeps R (ret a).
Proof. intros w. reflexivity. Qed.

Lemma keeps_raise (e : exn) : keeps R (raise (A := A) e).
Proof. intros w. reflexivity. Qed.

Lemma keeps_lift (r : outcome A) : keeps R (lift r).
Proof. intros w. reflexivity. Qed.

Lemma keeps_bind (m : M A) (k : A -> M B) :
  keeps R m -> (forall a, keeps R (k a)) -> keeps R (bind m k).
Proof.
  intros Hm Hk w. specialize (Hm w). rewrite run_bind.
  destruct (m w) as [[a|e] w1]; simpl in *; [|done].
  etrans; [exact Hm|apply Hk].
Qed.

Lemma keeps_try (body : M A) (handler : exn -> M A) :
  keeps R body -> (forall e, keeps R (handler e)) ->
  keeps R (try_except body handler).
Proof.
  intros Hm Hh w. specialize (Hm w). unfold try_except.
  destruct (body w) as [[a|e] w1]; simpl in *; [done|].
  etrans; [exact Hm|apply Hh].
Qed.

Lemma keeps_modify (f : world -> world) :
  (forall w, R w (f w)) -> keeps R (modify f).
Proof. intros H w. apply H. Qed.
End keeps_rules.

Section attempts_rules.
Context {A B : Type}.

Lemma attempts_none (m : M A) :
  keeps same_store m -> attempts m 0.
Proof. intros H w. destruct (H w) as [_ ->]. lia. Qed.

Lemma attempts_more (m : M A) n n' : attempts m n -> n <= n' -> attempts m n'.
Proof. intros H Hn w. specialize (H w). lia. Qed.

Lemma attempts_bind (m : M A) (k : A -> M B) n n' :
  attempts m n -> (forall a, attempts (k a) n') -> attempts (bind m k) (n + n').
Proof.
  intros Hm Hk w. specialize (Hm w). rewrite run_bind.
  destruct (m w) as [[a|e] w1]; simpl in *; [|lia].
  specialize (Hk a w1). lia.
Qed.

Lemma attempts_try (body : M A) (handler : exn -> M A) n n' :
  attempts body n -> (forall e, attempts (handler e) n') ->
  attempts (try_except body handler) (n + n').
Proof.
  intros Hm Hh w. specialize (Hm w). unfold try_except.
  destruct (body w) as [[a|e] w1]; simpl in *; [lia|].
  specialize (Hh e w1). lia.
Qed.
End attempts_rules.

#[local] Instance same_store_preorder : PreOrder same_store.
Proof.
  split.
  - by intros w.
  - intros w1 w2 w3 [H1 H2] [H3 H4]. split; congruence.
Qed.

#[local] Instance same_file_preorder path : PreOrder (same_file path).
Proof.
  split.
  - by intros w.
  - intros w1 w2 w3 H1 H2. unfold same_file in *. congruence.
Qed.

#[local] Instance same_namespace_preorder name : PreOrder (same_namespace name).
Proof.
  split.
  - intros w id doc H. eauto.
  - intros w1 w2 w3 H1 H2 id doc Hd.
    destruct (H1 _ _ Hd) as (doc2 & Hd2 & Hs & Hc).
    destruct (H2 _ _ Hd2) as (doc3 & Hd3 & Hs' & Hc').
    exists doc3. split_and!; [done|congruence|congruence].
Qed.

#[local] Instance same_others_preorder id : PreOrder (same_others id).
Proof.
  split.
  - by intros w k Hk.
  - intros w1 w2 w3 H1 H2 k Hk. rewrite H2, H1; done.
Qed.

(** * Dictionaries and field paths *)

Lemma dict_get_set_eq d k v : dict_get (dict_set d k v) k = Some v.
Proof.
  induction d as [|[k' v'] d IH]; simpl.
  - by rewrite String.eqb_refl.
  - destruct (String.eqb_spec k' k) as [-> |Hne]; simpl.
    + by rewrite String.eqb_refl.
    + by destruct (String.eqb_spec k' k).
Qed.

Lemma dict_get_set_ne d k v k' :
  k' <> k -> dict_get (dict_set d k v) k' = dict_get d k'.
Proof.
  intros Hne. induction d as [|[k0 v0] d IH]; simpl.
  - by destruct (String.eqb_spec k k').
  - destruct (String.eqb_spec k0 k) as [-> |Hk]; simpl.
    + by destruct (String.eqb_spec k k').
    + by rewrite IH.
Qed.

Lemma split_dots_nonempty s : split_dots s <> [].
Proof.
  destruct s as [|c s]; simpl; [done|].
  destruct (Ascii.eqb c "."); [done|]. by destruct (split_dots s).
Qed.

Lemma split_dots_plain s : occurs "." s = false -> split_dots s = [s].
Proof.
  induction s as [|c s IH]; simpl; [done|].
  intros [Hc Hs]%orb_false_iff. rewrite Hc, (IH Hs). done.
Qed.

Lemma split_dots_app p s :
  occurs "." p = false ->
  split_dots (p +:+ String "." s) = p :: split_dots s.
Proof.
  induction p as [|c p IH]; simpl; [done|].
  intros [Hc Hp]%orb_false_iff. rewrite Hc, (IH Hp). done.
Qed.

Lemma split_dots_stage name :
  occurs "." name = false ->
  split_dots ("agents_results." +:+ name) = ["agents_results"; name].
Proof.
  intros H.
  change ("agents_results." +:+ name) with ("agents_results" +:+ String "." name).
  rewrite split_dots_app by done. by rewrite split_dots_plain.
Qed.

(** What committing a stage's record does to a document. *)
Lemma commit_stage_result name record doc doc' :
  occurs "." name = false ->
  apply_sets [("agents_results." +:+ name, record)] doc = Returned doc' ->
  exists d results,
    doc = VDict d /\
    default (VDict []) (dict_get d "agents_results") = VDict results /\
    doc' = VDict (dict_set d "agents_results" (VDict (dict_set results name record))).
Proof.
  intros Hname. cbn [apply_sets]. rewrite split_dots_stage by done.
  cbn [set_path]. destruct doc as [a|l|d]; [done|done|].
  destruct (default (VDict []) (dict_get d "agents_results")) as [a|l|results] eqn:Hres;
    [done|done|].
  intros [= <-]. eauto.
Qed.

Lemma commit_stage_frame name record doc doc' other :
  occurs "." name = false ->
  other <> name ->
  apply_sets [("agents_results." +:+ name, record)] doc = Returned doc' ->
  stage_result doc' other = stage_result doc other /\
  field doc' "content" = field doc "content".
Proof.
  intros Hname Hother Hset.
  destruct (commit_stage_result _ _ _ _ Hname Hset) as (d & results & -> & Hres & ->).
  unfold stage_result, field. split.
  - rewrite dict_get_set_eq, dict_get_set_ne by done.
    destruct (dict_get d "agents_results") as [v|]; simpl in Hres.
    + by subst v.
    + by injection Hres as <-.
  - by apply dict_get_set_ne.
Qed.

Lemma commit_stage_entry name record doc doc' :
  occurs "." name = false ->
  apply_sets [("agents_results." +:+ name, record)] doc = Returned doc' ->
  stage_result doc' name = Some record.
Proof.
  intros Hname Hset.
  destruct (commit_stage_result _ _ _ _ Hname Hset) as (d & results & -> & Hres & ->).
  unfold stage_result, field. by rewrite !dict_get_set_eq.
Qed.

(** * What each operation leaves alone *)

Ltac prim :=
  let w := fresh "w" in
  intros w;
  unfold replace_one, find_one, update_one, read_text, makedirs, copy2,
    dump_json, move, remove, datetime_now, llm_generate;
  unfold db_attempt, fs_attempt, bind, modify, lift, ret, raise;
  repeat case_match; simplify_eq; simpl; try done.

Create HintDb keeps discriminated.

Section footprints.
Variable E : Env.

Lemma fs_attempt_store : keeps same_store (fs_attempt E).
Proof. prim. Qed.
Lemma read_text_store path : keeps same_store (read_text E path).
Proof. prim. Qed.
Lemma makedirs_store dir : keeps same_store (makedirs E dir).
Proof. prim. Qed.
Lemma copy2_store src dst : keeps same_store (copy2 E src dst).
Proof. prim. Qed.
Lemma dump_json_store path data : keeps same_store (dump_json E path data).
Proof. prim. Qed.
Lemma move_store src dst : keeps same_store (move E src dst).
Proof. prim. Qed.
Lemma remove_store path : keeps same_store (remove E path).
Proof. prim. Qed.
Lemma llm_generate_store prompt : keeps same_store (llm_generate E prompt).
Proof. prim. Qed.
Lemma datetime_now_store : keeps same_store datetime_now.
Proof. prim. Qed.
End footprints.

#[local] Hint Resolve fs_attempt_store read_text_store makedirs_store copy2_store
  dump_json_store move_store remove_store llm_generate_store datetime_now_store
  : keeps.

Ltac keeps_step :=
  first [ solve [auto with keeps]
        | apply keeps_ret; apply _
        | apply keeps_raise; apply _
        | apply keeps_lift; apply _
        | apply keeps_bind; [apply _| |intros ?]
        | apply keeps_try; [apply _| |intros ?]
        | progress (lazy zeta) ].
Ltac keeps_auto := repeat keeps_step.

Section store_untouched.
Variable E : Env.

Lemma generate_json_store prompt : keeps same_store (generate_json E prompt).
Proof. unfold generate_json. keeps_auto. Qed.
Hint Resolve generate_json_store : keeps.

Lemma _get_llm_response_store self content :
  keeps same_store (_get_llm_response E self content).
Proof. unfold _get_llm_response, ask. keeps_auto. Qed.
Hint Resolve _get_llm_response_store : keeps.

Lemma execute_store self news_item : keeps same_store (execute E self news_item).
Proof.
  unfold execute, classifier_execute, finalizer_execute.
  destruct (class self); keeps_auto.
Qed.

Lemma _move_to_error_store path : keeps same_store (_move_to_error E path).
Proof. unfold _move_to_error. auto with keeps. Qed.
Hint Resolve _move_to_error_store : keeps.

Lemma deliver_store news_item path metadata recipient :
  keeps same_store (deliver E news_item path metadata recipient).
Proof. unfold deliver. keeps_auto. Qed.
Hint Resolve deliver_store : keeps.

Lemma deliver_all_store news_item path metadata recipients :
  keeps same_store (deliver_all E news_item path metadata recipients).
Proof. induction recipients as [|r rest IH]; simpl; keeps_auto. Qed.
Hint Resolve deliver_all_store : keeps.

Lemma _distribute_store news_item path :
  keeps same_store (_distribute E news_item path).
Proof. unfold _distribute. keeps_auto. case_match; keeps_auto. Qed.
End store_untouched.

(** * Namespace isolation *)

Lemma keeps_sub {A} (R R' : relation world) (m : M A) :
  (forall w w', R w w' -> R' w w') -> keeps R m -> keeps R' m.
Proof. intros H Hm w. apply H, Hm. Qed.

Lemma same_store_namespace name w w' : same_store w w' -> same_namespace name w w'.
Proof. intros [Hc _] id doc Hd. exists doc. by rewrite Hc. Qed.

Lemma update_one_returned E id sets w w' :
  update_one E id sets w = (Returned tt, w') ->
  db_fails E (length (db_log w)) = false /\
  db_log w' = db_log w ++ [UpdateOne id sets] /\
  files w' = files w /\
  match id with
  | VAtom (AStr s) =>
      match coll w !! s with
      | Some doc =>
          exists doc', apply_sets sets doc = Returned doc' /\
                       coll w' = <[s := doc']> (coll w)
      | None => coll w' = coll w
      end
  | _ => coll w' = coll w
  end.
Proof.
  unfold update_one, db_attempt, bind.
  destruct (db_fails E (length (db_log w))); [done|].
  destruct id as [[| | | |s|]| |]; try (intros [= <-]; done).
  simpl. destruct (coll w !! s) as [doc|] eqn:Hdoc; [|intros [= <-]; done].
  destruct (apply_sets sets doc) as [doc'|e]; [|done].
  intros [= <-]. split_and!; try done. eauto.
Qed.

Lemma update_one_namespace E id name record other :
  occurs "." name = false ->
  other <> name ->
  keeps (same_namespace other)
    (update_one E id [("agents_results." +:+ name, record)]).
Proof.
  intros Hname Hother w key doc Hdoc.
  unfold update_one, db_attempt, bind.
  destruct (db_fails E (length (db_log w))); [simpl; eauto|].
  destruct id as [[| | | |s|]| |]; try (simpl; eauto; fail).
  cbv beta iota. cbn [coll log_db].
  destruct (coll w !! s) as [stored|] eqn:Hs; [|simpl; eauto].
  destruct (apply_sets [("agents_results." +:+ name, record)] stored)
    as [stored'|e] eqn:Hset; [|simpl; eauto].
  cbn [snd coll set_coll log_db].
  destruct (decide (key = s)) as [-> |Hne].
  - rewrite lookup_insert_eq. exists stored'. split; [done|].
    rewrite Hs in Hdoc. injection Hdoc as ->.
    by apply (commit_stage_frame name record).
  - rewrite lookup_insert_ne by done. eauto.
Qed.

Lemma process_namespace E self news_item other :
  occurs "." (agent_name self) = false ->
  other <> agent_name self ->
  keeps (same_namespace other) (process E self news_item).
Proof.
  intros Hname Hother. unfold process.
  apply keeps_bind; [apply _|apply keeps_lift; apply _|intros _].
  apply keeps_bind; [apply _| |intros result].
  { eapply keeps_sub; [apply same_store_namespace|apply execute_store]. }
  lazy zeta.
  apply keeps_bind; [apply _|apply keeps_lift; apply _|intros id].
  apply keeps_bind; [apply _|by apply update_one_namespace|intros _].
  apply keeps_ret; apply _.
Qed.

(** What a call of [process] that returns has done. *)
Lemma process_returned E self news_item w cleaned w' :
  process E self news_item w = (Returned cleaned, w') ->
  exists id result w1,
    getitem news_item "_id" = Returned id /\
    execute E self news_item w = (Returned result, w1) /\
    cleaned = _sanitize_mongo_keys result /\
    update_one E id [("agents_results." +:+ agent_name self, cleaned)] w1
    = (Returned tt, w').
Proof.
  unfold process. rewrite run_bind. unfold lift at 1.
  destruct (getitem news_item "_id") as [id|e] eqn:Hid; [|done].
  rewrite run_bind.
  destruct (execute E self news_item w) as [[result|e] w1] eqn:Hex; [|done].
  lazy zeta. rewrite run_bind. unfold lift at 1.
  rewrite run_bind.
  destruct (update_one E id _ w1) as [[[]|e] w2] eqn:Hup; [|done].
  unfold ret. intros [= <- <-]. eauto 10.
Qed.


(** * Distribution without recipients *)

Lemma move_returned E src dst w bytes :
  fs_fails E (fs_ops w) = false ->
  files w !! src = Some bytes ->
  move E src dst w
  = (Returned tt, set_files (fun fs => <[dst := bytes]> (delete src fs)) (count_fs w)).
Proof.
  intros Hfs Hsrc. unfold move, fs_attempt, bind. rewrite Hfs.
  cbv beta iota. cbn [files count_fs]. by rewrite Hsrc.
Qed.

(** With no recipient in the decision, distribution moves the source
    to the error sink, returns, and touches nothing else. *)
Lemma _distribute_without_recipients E (news_item : value) (file_path : string)
    (w : world) (final recipients filename : value) (bytes : string) :
  get_default news_item "final_decision" (VDict []) = Returned final ->
  get_default final "final_recipients" (VList []) = Returned recipients ->
  truthy recipients = false ->
  getitem news_item "filename" = Returned filename ->
  files w !! file_path = Some bytes ->
  fs_fails E (fs_ops w) = false ->
  exists w',
    _distribute E news_item file_path w = (Returned tt, w') /\
    files w' !! error_file file_path = Some bytes /\
    (file_path <> error_file file_path -> files w' !! file_path = None) /\
    (forall p, p <> file_path -> p <> error_file file_path ->
               files w' !! p = files w !! p) /\
    dirs w' = dirs w /\
    coll w' = coll w /\ db_log w' = db_log w.
Proof.
  intros Hfinal Hrecipients Hempty Hname Hfile Hfs.
  eexists. split.
  - unfold _distribute, bind, lift. rewrite Hfinal, Hrecipients, Hempty, Hname.
    cbv beta iota. cbn [negb]. cbv iota.
    unfold _move_to_error. by apply move_returned.
  - cbn [files dirs coll db_log set_files count_fs]. fold (error_file file_path).
    split_and!; try done.
    + apply lookup_insert_eq.
    + intros Hne. rewrite lookup_insert_ne by done. apply lookup_delete_eq.
    + intros p Hp Hp'. rewrite lookup_insert_ne by done. by apply lookup_delete_ne.
Qed.

(** * Paths *)

Lemma occurs_app c a b : occurs c (a +:+ b) = occurs c a || occurs c b.
Proof.
  induction a as [|c' a IH]; simpl; [done|]. by rewrite IH, orb_assoc.
Qed.

Lemma append_assoc (a b c : string) : (a +:+ b) +:+ c = a +:+ (b +:+ c).
Proof.
  induction a as [|x a IH]; [done|].
  change (String x ((a +:+ b) +:+ c) = String x (a +:+ (b +:+ c))).
  by rewrite IH.
Qed.

Lemma length_append (a b : string) :
  String.length (a +:+ b) = String.length a + String.length b.
Proof.
  induction a as [|x a IH]; [done|].
  change (S (String.length (a +:+ b)) = S (String.length a) + String.length b).
  by rewrite IH.
Qed.

Lemma prefix_append (p s : string) : String.prefix p (p +:+ s) = true.
Proof.
  induction p as [|c p IH]; [by destruct s|].
  change (String c p +:+ s) with (String c (p +:+ s)). cbn [String.prefix].
  destruct (ascii_dec c c); [done|congruence].
Qed.

Lemma basename_plain f : occurs "/" f = false -> basename f = f.
Proof.
  destruct f as [|c f]; simpl; [done|].
  intros [Hc Hf]%orb_false_iff. by rewrite Hf, Hc.
Qed.

Lemma basename_sep a f :
  occurs "/" f = false -> basename (a +:+ String "/" f) = f.
Proof.
  intros Hf. induction a as [|c a IH]; simpl.
  - by rewrite Hf.
  - rewrite occurs_app. simpl. by rewrite orb_true_r.
Qed.

Lemma ends_with_slash_split a :
  ends_with_slash a = true -> exists a', a = a' +:+ "/".
Proof.
  induction a as [|c a IH]; [done|].
  destruct a as [|c' a].
  - simpl. intros ->%Ascii.eqb_eq. by exists "".
  - intros H. destruct (IH H) as [a' Ha']. exists (String c a').
    by rewrite Ha'.
Qed.

Lemma no_slash_not_absolute f : occurs "/" f = false -> String.prefix "/" f = false.
Proof.
  destruct f as [|c f]; [done|]. cbn [occurs].
  intros [Hc _]%orb_false_iff. apply Ascii.eqb_neq in Hc.
  cbn [String.prefix]. destruct (ascii_dec "/" c); [congruence|done].
Qed.

(** Joining a name without slash to a directory puts it right under the
    directory. *)
Lemma join_plain a f :
  occurs "/" f = false ->
  a <> "" ->
  exists sep, os_path_join a f = a +:+ sep +:+ f /\ basename (os_path_join a f) = f.
Proof.
  intros Hf Ha. unfold os_path_join.
  rewrite no_slash_not_absolute by done.
  destruct (String.eqb_spec a ""); [done|].
  destruct (ends_with_slash a) eqn:Hend.
  - exists "". split; [done|].
    destruct (ends_with_slash_split _ Hend) as [a' ->].
    rewrite append_assoc. simpl. by apply basename_sep.
  - exists "/". split; [done|]. by apply basename_sep.
Qed.

Lemma slug_no_slash recipient : occurs "/" (slug_of recipient) = false.
Proof. unfold slug_of. by apply occurs_replace_eq. Qed.

Lemma recipient_dir_under recipient :
  recipient_dir_of recipient = "data/recipients/" +:+ slug_of recipient.
Proof.
  unfold recipient_dir_of, os_path_join.
  rewrite no_slash_not_absolute by apply slug_no_slash. reflexivity.
Qed.

Lemma recipient_dir_nonempty recipient : recipient_dir_of recipient <> "".
Proof. by rewrite recipient_dir_under. Qed.

Lemma recipient_file_under recipient f :
  occurs "/" f = false ->
  String.prefix "data/recipients/" (os_path_join (recipient_dir_of recipient) f) = true.
Proof.
  intros Hf.
  destruct (join_plain (recipient_dir_of recipient) f Hf
              (recipient_dir_nonempty _)) as (sep & -> & _).
  rewrite recipient_dir_under, append_assoc. apply prefix_append.
Qed.

Lemma json_name_plain f : occurs "/" f = false -> occurs "/" (f +:+ ".json") = false.
Proof. intros Hf. rewrite occurs_app, Hf. reflexivity. Qed.

Lemma delivery_not_metadata r r' f :
  occurs "/" f = false -> delivery_file r f <> metadata_file r' f.
Proof.
  intros Hf Heq. apply (f_equal basename) in Heq.
  unfold delivery_file, metadata_file in Heq.
  destruct (join_plain (recipient_dir_of r) f Hf (recipient_dir_nonempty _))
    as (_ & _ & Hb).
  destruct (join_plain (recipient_dir_of r') (f +:+ ".json")
              (json_name_plain _ Hf) (recipient_dir_nonempty _)) as (_ & _ & Hb').
  rewrite Hb, Hb' in Heq. apply (f_equal String.length) in Heq.
  rewrite length_append in Heq. simpl in Heq. lia.
Qed.

Lemma outside_not_delivery path r f :
  String.prefix "data/recipients/" path = false ->
  occurs "/" f = false ->
  path <> os_path_join (recipient_dir_of r) f.
Proof.
  intros Hpath Hf ->. by rewrite recipient_file_under in Hpath.
Qed.

(** * Fan-out *)

Section fan_out.
Variable E : Env.
Hypothesis Hfs : forall n, fs_fails E n = false.

Lemma makedirs_returned dir w :
  makedirs E dir w = (Returned tt, set_dirs (fun ds => {[dir]} ∪ ds) (count_fs w)).
Proof. unfold makedirs, fs_attempt, bind, modify. by rewrite Hfs. Qed.

Lemma copy2_returned src dst w bytes :
  files w !! src = Some bytes ->
  src <> dst ->
  copy2 E src dst w = (Returned tt, set_files (insert dst bytes) (count_fs w)).
Proof.
  intros Hsrc Hne. unfold copy2, fs_attempt, bind. rewrite Hfs.
  cbv beta iota. cbn [files count_fs]. rewrite Hsrc.
  by destruct (String.eqb_spec src dst).
Qed.

Lemma dump_json_returned path data text w :
  json_dumps E data = Returned text ->
  dump_json E path data w
  = (Returned tt,
     set_files (insert path text) (set_files (insert path "") (count_fs w))).
Proof.
  intros Hdump. unfold dump_json, fs_attempt, bind, modify, lift.
  by rewrite Hfs, Hdump.
Qed.

Lemma remove_returned path w bytes :
  files w !! path = Some bytes ->
  remove E path w = (Returned tt, set_files (delete path) (count_fs w)).
Proof.
  intros Hsrc. unfold remove, fs_attempt, bind. rewrite Hfs.
  cbv beta iota. cbn [files count_fs]. by rewrite Hsrc.
Qed.

Variables (news_item metadata : value) (path fname bytes text : string).
Hypothesis Hname : getitem news_item "filename" = Returned (VStr fname).
Hypothesis Hplain : occurs "/" fname = false.
Hypothesis Houtside : String.prefix "data/recipients/" path = false.
Hypothesis Hdump : json_dumps E metadata = Returned text.

Lemma delivery_elsewhere r : delivery_file r fname <> path.
Proof. intros H. by apply (outside_not_delivery path r fname). Qed.

Lemma record_elsewhere r : metadata_file r fname <> path.
Proof.
  intros H. apply (outside_not_delivery path r (fname +:+ ".json")); [done| |done].
  by apply json_name_plain.
Qed.

Lemma deliver_returned recipient w :
  files w !! path = Some bytes ->
  exists w1,
    deliver E news_item path metadata (VStr recipient) w = (Returned tt, w1) /\
    files w1 = <[metadata_file recipient fname := text]>
                 (<[delivery_file recipient fname := bytes]> (files w)) /\
    dirs w1 = {[recipient_dir_of recipient]} ∪ dirs w /\
    coll w1 = coll w.
Proof.
  intros Hsrc. eexists. split.
  - unfold deliver. cbn [_slugify]. unfold lift at 1. rewrite run_bind.
    cbv beta iota zeta. fold (slug_of recipient).
    fold (recipient_dir_of recipient).
    rewrite (run_bind_returned _ _ _ _ _ (makedirs_returned _ _)).
    unfold lift at 1. rewrite run_bind, Hname. cbv beta iota.
    cbn [as_str]. unfold lift at 1. rewrite run_bind. cbv beta iota.
    erewrite run_bind_returned; [|apply copy2_returned; [exact Hsrc|]].
    + by apply dump_json_returned.
    + by apply outside_not_delivery.
  - cbn [files dirs coll set_files set_dirs count_fs].
    split_and!; [|done|done].
    by rewrite insert_insert_eq.
Qed.

Lemma deliver_all_returned names w :
  files w !! path = Some bytes ->
  exists w',
    deliver_all E news_item path metadata ((fun s => VStr s) <$> names) w = (Returned tt, w') /\
    coll w' = coll w /\
    dirs w' = list_to_set (recipient_dir_of <$> names) ∪ dirs w /\
    forall p,
      files w' !! p =
        if bool_decide (p ∈ deliveries fname names) then Some bytes
        else if bool_decide (p ∈ records fname names) then Some text
        else files w !! p.
Proof.
  revert w. induction names as [|r rest IH]; intros w Hsrc.
  - exists w. split_and!; [done|done| |done].
    by rewrite fmap_nil, list_to_set_nil, (left_id_L ∅ (∪)).
  - destruct (deliver_returned r w Hsrc) as (w1 & Hrun & Hfiles & Hdirs & Hcoll).
    assert (Hsrc1 : files w1 !! path = Some bytes).
    { rewrite Hfiles, !lookup_insert_ne;
        auto using delivery_elsewhere, record_elsewhere. }
    destruct (IH w1 Hsrc1) as (w' & Hrun' & Hcoll' & Hdirs' & Hfiles').
    exists w'. split_and!.
    + rewrite fmap_cons. cbn [deliver_all].
      by rewrite (run_bind_returned _ _ _ _ _ Hrun).
    + congruence.
    + rewrite Hdirs', Hdirs, fmap_cons, list_to_set_cons.
      rewrite (assoc_L (∪)), (comm_L (∪) (list_to_set _)). done.
    + intros p. rewrite Hfiles', Hfiles.
      assert (Hmix : forall q, q ∈ deliveries fname rest -> q ∈ records fname (r :: rest) -> False).
      { intros q (r1 & -> & _)%list_elem_of_fmap (r2 & Heq & _)%list_elem_of_fmap.
        by apply delivery_not_metadata in Heq. }
      assert (Hmix' : forall q, q ∈ records fname rest -> q <> delivery_file r fname).
      { intros q (r1 & -> & _)%list_elem_of_fmap Heq.
        symmetry in Heq. by apply delivery_not_metadata in Heq. }
      unfold deliveries, records in *. rewrite !fmap_cons in *.
      destruct (decide (p = delivery_file r fname)) as [-> |Hd].
      * rewrite (bool_decide_eq_true_2 (_ ∈ _ :: _)) by (by left).
        case_bool_decide as H1; [done|].
        case_bool_decide as H2; [by apply Hmix' in H2|].
        rewrite lookup_insert_ne by (intros Heq; symmetry in Heq;
                                     by apply delivery_not_metadata in Heq).
        apply lookup_insert_eq.
      * destruct (decide (p = metadata_file r fname)) as [-> |Hm].
        -- case_bool_decide as H1.
           { exfalso. apply (Hmix _ H1). by left. }
           rewrite (bool_decide_eq_false_2 (_ ∈ _ :: _))
             by (intros [?|?]%elem_of_cons; done).
           rewrite (bool_decide_eq_true_2 (_ ∈ _ :: _)) by (by left).
           case_bool_decide; [done|]. apply lookup_insert_eq.
        -- rewrite !lookup_insert_ne by done.
           repeat case_bool_decide; try done;
             repeat match goal with
               | H : _ ∈ _ :: _ |- _ => apply elem_of_cons in H as [?|?]
               | H : _ ∉ _ :: _ |- _ => apply not_elem_of_cons in H as [? ?]
               end; done.
Qed.
End fan_out.

(** * A fan-out that fails *)

Lemma bind_lift_returned {A B} (a : A) (k : A -> M B) :
  bind (lift (Returned a)) k = k a.
Proof. reflexivity. Qed.

Lemma bind_lift_raised {A B} (e : exn) (k : A -> M B) :
  bind (lift (Raised e)) k = raise e.
Proof. reflexivity. Qed.

Lemma move_raised E src dst w e w' :
  move E src dst w = (Raised e, w') -> files w' = files w.
Proof.
  unfold move, fs_attempt, bind.
  destruct (fs_fails E (fs_ops w)); [by intros [= _ <-]|].
  cbv beta iota. cbn [files count_fs].
  destruct (files w !! src); [done|]. by intros [= _ <-].
Qed.

Lemma remove_raised E path w e w' :
  remove E path w = (Raised e, w') -> files w' = files w.
Proof.
  unfold remove, fs_attempt, bind.
  destruct (fs_fails E (fs_ops w)); [by intros [= _ <-]|].
  cbv beta iota. cbn [files count_fs].
  destruct (files w !! path); [done|]. by intros [= _ <-].
Qed.

Section source_kept.
Variable E : Env.
Variables (news_item : value) (path : string).

(** The two facts the orchestrator provides: the stored file name is
    a base name, and the source is not in the recipients' tree. *)
Abbreviation plain_name :=
  (forall fname, getitem news_item "filename" = Returned (VStr fname) ->
                 occurs "/" fname = false).
Abbreviation outside := (String.prefix "data/recipients/" path = false).

Lemma makedirs_source dir : keeps (same_file path) (makedirs E dir).
Proof. prim. Qed.

Lemma copy2_source src dst :
  dst <> path -> keeps (same_file path) (copy2 E src dst).
Proof.
  intros Hne. prim. unfold same_file. cbn [files set_files count_fs].
  by rewrite lookup_insert_ne.
Qed.

Lemma dump_json_source file data :
  file <> path -> keeps (same_file path) (dump_json E file data).
Proof.
  intros Hne. prim; unfold same_file; cbn [files set_files count_fs];
    by rewrite ?lookup_insert_ne.
Qed.

Lemma deliver_source metadata recipient :
  plain_name -> outside ->
  keeps (same_file path) (deliver E news_item path metadata recipient).
Proof.
  intros Hplain Houtside. unfold deliver.
  destruct recipient as [[| | | |r|]| |]; cbn [_slugify];
    try (rewrite bind_lift_raised; apply keeps_raise; apply _).
  rewrite bind_lift_returned. fold (slug_of r). fold (recipient_dir_of r).
  apply keeps_bind; [apply _|apply makedirs_source|intros _].
  destruct (getitem news_item "filename") as [filename|e] eqn:Hname;
    [|rewrite bind_lift_raised; apply keeps_raise; apply _].
  rewrite bind_lift_returned.
  destruct filename as [[| | | |fname|]| |]; cbn [as_str];
    try (rewrite bind_lift_raised; apply keeps_raise; apply _).
  rewrite bind_lift_returned. pose proof (Hplain _ eq_refl) as Hfname.
  apply keeps_bind; [apply _| |intros _].
  - apply copy2_source. intros H. by apply (outside_not_delivery path r fname).
  - apply dump_json_source. intros H.
    apply (outside_not_delivery path r (fname +:+ ".json")); [done| |done].
    by apply json_name_plain.
Qed.

Lemma deliver_all_source metadata recipients :
  plain_name -> outside ->
  keeps (same_file path) (deliver_all E news_item path metadata recipients).
Proof.
  intros Hplain Houtside.
  induction recipients as [|r rest IH]; cbn [deliver_all].
  - apply keeps_ret; apply _.
  - apply keeps_bind; [apply _|by apply deliver_source|intros _; apply IH].
Qed.

(** However distribution fails, the source is where it was when
    [_distribute] gives up. *)
Lemma _distribute_raised_source w e w' :
  plain_name -> outside ->
  _distribute E news_item path w = (Raised e, w') ->
  files w' !! path = files w !! path.
Proof.
  intros Hplain Houtside.
  pose proof (fun metadata todo =>
                deliver_all_source metadata todo Hplain Houtside) as Hkeeps.
  clear Hplain. unfold _distribute.
  destruct (get_default news_item "final_decision" (VDict [])) as [final|e0];
    [rewrite bind_lift_returned|by intros [= _ <-]].
  destruct (get_default final "final_recipients" (VList [])) as [recipients|e0];
    [rewrite bind_lift_returned|by intros [= _ <-]].
  destruct (truthy recipients); cbn [negb].
  - destruct (getitem news_item "filename") as [filename|e0];
      [rewrite bind_lift_returned|by intros [= _ <-]].
    destruct (getitem news_item "_id") as [id|e0];
      [rewrite bind_lift_returned|by intros [= _ <-]].
    lazy zeta.
    destruct (iterate recipients) as [todo|e0];
      [rewrite bind_lift_returned|by intros [= _ <-]].
    rewrite run_bind.
    pose proof (Hkeeps
                  (VDict [("original_filename", filename); ("id", id);
                          ("metadata", final)]) todo w) as Hkeep.
    destruct (deliver_all E news_item path _ todo w) as [[[]|e1] w1].
    + intros Hrm%remove_raised. rewrite Hrm. exact Hkeep.
    + intros [= _ <-]. exact Hkeep.
  - destruct (getitem news_item "filename") as [filename|e0];
      [rewrite bind_lift_returned|by intros [= _ <-]].
    unfold _move_to_error. by intros ->%move_raised.
Qed.
End source_kept.

(** * The finalizer's [try] block *)

Lemma update_one_run E s sets w doc doc' :
  db_fails E (length (db_log w)) = false ->
  coll w !! s = Some doc ->
  apply_sets sets doc = Returned doc' ->
  update_one E (VStr s) sets w
  = (Returned tt, set_coll (insert s doc') (log_db (UpdateOne (VStr s) sets) w)).
Proof.
  intros Hdb Hdoc Hset. unfold update_one, db_attempt, bind. rewrite Hdb.
  cbv beta iota. cbn [coll log_db]. by rewrite Hdoc, Hset.
Qed.

Section finalize_steps.
Variable E : Env.
Variables (file_hash file_path : string) (news_item0 : value).
Variables (final_result news_item : value) (w0 w1 w2 w3 : world).
Hypothesis Hprocess :
  process E (FinalizerAgent E) news_item0 w0 = (Returned final_result, w1).
Hypothesis Hcommit :
  update_one E (VStr file_hash)
    [("final_decision", final_result); ("status", VStr "completed")] w1
  = (Returned tt, w2).
Hypothesis Hreload :
  get_news_item E (VStr file_hash) w2 = (Returned news_item, w3).

Lemma finalize_distributes :
  finalize E file_hash news_item0 file_path w0
  = try_except (_distribute E news_item file_path)
      (fun e =>
         update_one E (VStr file_hash)
           [("status", VStr "error"); ("error", VStr (str_exn e))] ;;
         _move_to_error E file_path) w3.
Proof.
  unfold finalize, try_except.
  rewrite (run_bind_returned _ _ _ _ _ Hprocess).
  rewrite (run_bind_returned _ _ _ _ _ Hcommit).
  by rewrite (run_bind_returned _ _ _ _ _ Hreload).
Qed.

Lemma finalize_returned w4 :
  _distribute E news_item file_path w3 = (Returned tt, w4) ->
  finalize E file_hash news_item0 file_path w0 = (Returned tt, w4).
Proof. intros H. rewrite finalize_distributes. by apply run_try_returned. Qed.

Lemma finalize_handles e w4 d bytes :
  _distribute E news_item file_path w3 = (Raised e, w4) ->
  db_fails E (length (db_log w4)) = false ->
  fs_fails E (fs_ops w4) = false ->
  coll w4 !! file_hash = Some (VDict d) ->
  files w4 !! file_path = Some bytes ->
  exists w5 doc,
    finalize E file_hash news_item0 file_path w0 = (Returned tt, w5) /\
    files w5 !! error_file file_path = Some bytes /\
    (file_path <> error_file file_path -> files w5 !! file_path = None) /\
    coll w5 !! file_hash = Some doc /\
    field doc "status" = Some (VStr "error") /\
    field doc "error" = Some (VStr (str_exn e)).
Proof.
  intros Hrun Hdb Hfs Hdoc Hsrc.
  eexists _, _. split_and!.
  - rewrite finalize_distributes. rewrite (run_try_raised _ _ _ _ _ Hrun).
    erewrite run_bind_returned;
      [|eapply update_one_run; [exact Hdb|exact Hdoc|reflexivity]].
    unfold _move_to_error. by apply move_returned.
  - cbn [files set_files set_coll count_fs log_db]. apply lookup_insert_eq.
  - intros Hne. cbn [files set_files set_coll count_fs log_db].
    rewrite lookup_insert_ne by done. apply lookup_delete_eq.
  - cbn [coll set_files set_coll count_fs log_db]. apply lookup_insert_eq.
  - unfold field. rewrite dict_get_set_ne by done. apply dict_get_set_eq.
  - unfold field. apply dict_get_set_eq.
Qed.
End finalize_steps.

Lemma commit_decision_fields decision status doc doc' :
  apply_sets [("final_decision", decision); ("status", status)] doc = Returned doc' ->
  field doc' "status" = Some status /\ field doc' "final_decision" = Some decision.
Proof.
  destruct doc as [a|l|d]; [done|done|].
  intros [= <-]. cbn [field]. split.
  - apply dict_get_set_eq.
  - rewrite dict_get_set_ne by done. apply dict_get_set_eq.
Qed.

Lemma find_one_same_docs E id w r w' : find_one E id w = (r, w') -> coll w' = coll w.
Proof.
  unfold find_one, db_attempt, bind.
  destruct (db_fails E (length (db_log w))); [by intros [= _ <-]|].
  by destruct id as [[| | | |s|]| |]; intros [= _ <-].
Qed.

(** C6.  When the decision the finalizer's [try] block has committed
    names no recipient, distribution moves the source artifact to the
    error sink and returns normally, so that the handler of the block
    does not run: nothing else in the file system changes, no recipient
    location is made or written, no store operation follows the commit,
    and the Document stays as committed, with status completed and the
    decision the finalizer returned. *)
Theorem no_recipient_quarantine E (file_hash file_path : string)
    (news_item0 final_result news_item final recipients filename : value)
    (bytes : string) (w0 w1 w2 w3 : world) :
  process E (FinalizerAgent E) news_item0 w0 = (Returned final_result, w1) ->
  update_one E (VStr file_hash)
    [("final_decision", final_result); ("status", VStr "completed")] w1
  = (Returned tt, w2) ->
  get_news_item E (VStr file_hash) w2 = (Returned news_item, w3) ->
  get_default news_item "final_decision" (VDict []) = Returned final ->
  get_default final "final_recipients" (VList []) = Returned recipients ->
  truthy recipients = false ->
  getitem news_item "filename" = Returned filename ->
  files w3 !! file_path = Some bytes ->
  fs_fails E (fs_ops w3) = false ->
  exists w',
    _distribute E news_item file_path w3 = (Returned tt, w') /\
    finalize E file_hash news_item0 file_path w0 = (Returned tt, w') /\
    files w' !! error_file file_path = Some bytes /\
    (file_path <> error_file file_path -> files w' !! file_path = None) /\
    (forall p, p <> file_path -> p <> error_file file_path ->
               files w' !! p = files w3 !! p) /\
    dirs w' = dirs w3 /\
    coll w' = coll w2 /\ db_log w' = db_log w3 /\
    (forall doc0,
        coll w1 !! file_hash = Some doc0 ->
        exists doc,
          coll w' !! file_hash = Some doc /\
          field doc "status" = Some (VStr "completed") /\
          field doc "final_decision" = Some final_result).
Proof.
  intros Hprocess Hcommit Hreload Hfinal Hrecipients Hempty Hname Hsrc Hfs.
  destruct (_distribute_without_recipients E news_item file_path w3 final
              recipients filename bytes Hfinal Hrecipients Hempty Hname Hsrc Hfs)
    as (w' & Hrun & Hmoved & Hgone & Hrest & Hdirs & Hcoll & Hlog).
  pose proof (find_one_same_docs _ _ _ _ _ Hreload) as Hcoll3.
  exists w'. split_and!; try done.
  - by apply (finalize_returned E file_hash file_path news_item0 final_result
                news_item w0 w1 w2 w3).
  - congruence.
  - intros doc0 Hdoc0.
    apply update_one_returned in Hcommit as (_ & _ & _ & Hset).
    rewrite Hdoc0 in Hset. destruct Hset as (doc & Hset & Hcoll2).
    exists doc. rewrite Hcoll, Hcoll3, Hcoll2, lookup_insert_eq.
    split; [done|]. by apply (commit_decision_fields _ _ doc0).
Qed.

Lemma not_delivered path fname names :
  String.prefix "data/recipients/" path = false ->
  occurs "/" fname = false ->
  (path ∉ deliveries fname names) /\ (path ∉ records fname names).
Proof.
  intros Houtside Hplain. split.
  - intros (r & Heq & _)%list_elem_of_fmap. symmetry in Heq.
    by apply delivery_elsewhere in Heq.
  - intros (r & Heq & _)%list_elem_of_fmap. symmetry in Heq.
    by apply record_elsewhere in Heq.
Qed.

(** The fan-out when no file operation fails. *)
Lemma _distribute_fans_out E news_item path fname id final names bytes text w :
  (forall n, fs_fails E n = false) ->
  getitem news_item "filename" = Returned (VStr fname) ->
  occurs "/" fname = false ->
  getitem news_item "_id" = Returned id ->
  get_default news_item "final_decision" (VDict []) = Returned final ->
  get_default final "final_recipients" (VList [])
  = Returned (VList ((fun s => VStr s) <$> names)) ->
  names <> [] ->
  String.prefix "data/recipients/" path = false ->
  files w !! path = Some bytes ->
  json_dumps E (VDict [("original_filename", VStr fname); ("id", id);
                       ("metadata", final)]) = Returned text ->
  exists w',
    _distribute E news_item path w = (Returned tt, w') /\
    (forall r, r ∈ names ->
               files w' !! delivery_file r fname = Some bytes /\
               files w' !! metadata_file r fname = Some text /\
               recipient_dir_of r ∈ dirs w') /\
    dirs w' = list_to_set (recipient_dir_of <$> names) ∪ dirs w /\
    files w' !! path = None /\
    (forall p, p <> path -> p ∉ deliveries fname names -> p ∉ records fname names ->
               files w' !! p = files w !! p) /\
    coll w' = coll w.
Proof.
  intros Hfs Hname Hplain Hid Hfinal Hrecipients Hsome Houtside Hsrc Hdump.
  destruct (deliver_all_returned E Hfs news_item _ path fname bytes text
              Hname Hplain Houtside Hdump names w Hsrc)
    as (w1 & Hrun & Hcoll & Hdirs & Hfiles).
  destruct (not_delivered path fname names Houtside Hplain) as [Hnd Hnr].
  assert (Hsrc1 : files w1 !! path = Some bytes).
  { rewrite Hfiles. by rewrite !bool_decide_eq_false_2. }
  eexists. split_and!.
  - unfold _distribute. rewrite Hfinal, bind_lift_returned.
    rewrite Hrecipients, bind_lift_returned.
    assert (truthy (VList ((fun s => VStr s) <$> names)) = true) as ->
      by (by destruct names).
    cbn [negb]. rewrite Hname, bind_lift_returned, Hid, bind_lift_returned.
    lazy zeta. cbn [iterate]. rewrite bind_lift_returned.
    rewrite (run_bind_returned _ _ _ _ _ Hrun).
    by apply (remove_returned E Hfs path w1 bytes).
  - intros r Hr. cbn [files dirs set_files count_fs].
    assert (Hd : delivery_file r fname ∈ deliveries fname names)
      by (by apply (list_elem_of_fmap_2 (fun r => delivery_file r fname))).
    assert (Hm : metadata_file r fname ∈ records fname names)
      by (by apply (list_elem_of_fmap_2 (fun r => metadata_file r fname))).
    split_and!.
    + rewrite lookup_delete_ne by (intros Heq; by rewrite Heq in Hnd).
      rewrite Hfiles. by rewrite bool_decide_eq_true_2.
    + rewrite lookup_delete_ne by (intros Heq; by rewrite Heq in Hnr).
      rewrite Hfiles.
      rewrite bool_decide_eq_false_2.
      * by rewrite bool_decide_eq_true_2.
      * intros (r' & Heq & _)%list_elem_of_fmap. symmetry in Heq.
        by apply delivery_not_metadata in Heq.
    + rewrite Hdirs. apply elem_of_union_l, elem_of_list_to_set.
      by apply list_elem_of_fmap_2.
  - done.
  - cbn [files set_files count_fs]. apply lookup_delete_eq.
  - intros p Hp Hpd Hpr. cbn [files set_files count_fs].
    rewrite lookup_delete_ne by done. rewrite Hfiles.
    by rewrite !bool_decide_eq_false_2.
  - done.
Qed.

(** C7, as the code has it.  Within the finalizer's [try] block, for a
    non-empty list of recipient names: when no file operation fails,
    every recipient's location is made and receives a copy of the
    artifact's bytes and the metadata record (original name, id, full
    decision), nothing else is written, and the source is removed last;
    when the fan-out fails, [_distribute] gives up with the source still
    in place, and the handler of the [try] block then marks the Document
    [error] and moves the source to the error sink. *)
Theorem fan_out_then_removal E (file_hash file_path fname : string)
    (news_item0 final_result news_item id final : value)
    (names : list string) (bytes : string) (w0 w1 w2 w3 : world) :
  process E (FinalizerAgent E) news_item0 w0 = (Returned final_result, w1) ->
  update_one E (VStr file_hash)
    [("final_decision", final_result); ("status", VStr "completed")] w1
  = (Returned tt, w2) ->
  get_news_item E (VStr file_hash) w2 = (Returned news_item, w3) ->
  getitem news_item "filename" = Returned (VStr fname) ->
  occurs "/" fname = false ->
  getitem news_item "_id" = Returned id ->
  get_default news_item "final_decision" (VDict []) = Returned final ->
  get_default final "final_recipients" (VList [])
  = Returned (VList ((fun s => VStr s) <$> names)) ->
  names <> [] ->
  String.prefix "data/recipients/" file_path = false ->
  files w3 !! file_path = Some bytes ->
  (forall text,
      (forall n, fs_fails E n = false) ->
      json_dumps E (VDict [("original_filename", VStr fname); ("id", id);
                           ("metadata", final)]) = Returned text ->
      exists w4,
        finalize E file_hash news_item0 file_path w0 = (Returned tt, w4) /\
        (forall r, r ∈ names ->
                   files w4 !! delivery_file r fname = Some bytes /\
                   files w4 !! metadata_file r fname = Some text /\
                   recipient_dir_of r ∈ dirs w4) /\
        dirs w4 = list_to_set (recipient_dir_of <$> names) ∪ dirs w3 /\
        files w4 !! file_path = None /\
        (forall p, p <> file_path ->
                   p ∉ deliveries fname names -> p ∉ records fname names ->
                   files w4 !! p = files w3 !! p) /\
        coll w4 = coll w3) /\
  (forall e w4,
      _distribute E news_item file_path w3 = (Raised e, w4) ->
      files w4 !! file_path = Some bytes /\
      forall d,
        db_fails E (length (db_log w4)) = false ->
        fs_fails E (fs_ops w4) = false ->
        coll w4 !! file_hash = Some (VDict d) ->
        exists w5 doc,
          finalize E file_hash news_item0 file_path w0 = (Returned tt, w5) /\
          files w5 !! error_file file_path = Some bytes /\
          (file_path <> error_file file_path -> files w5 !! file_path = None) /\
          coll w5 !! file_hash = Some doc /\
          field doc "status" = Some (VStr "error") /\
          field doc "error" = Some (VStr (str_exn e))).
Proof.
  intros Hprocess Hcommit Hreload Hname Hplain Hid Hfinal Hrecipients Hsome
    Houtside Hsrc.
  split.
  - intros text Hfs Hdump.
    destruct (_distribute_fans_out E news_item file_path fname id final names
                bytes text w3 Hfs Hname Hplain Hid Hfinal Hrecipients Hsome
                Houtside Hsrc Hdump) as (w4 & Hrun & Hrest).
    exists w4. split; [|exact Hrest].
    by apply (finalize_returned E file_hash file_path news_item0 final_result
                news_item w0 w1 w2 w3).
  - intros e w4 Hrun.
    assert (Hsrc4 : files w4 !! file_path = Some bytes).
    { rewrite <- Hsrc.
      apply (_distribute_raised_source E news_item file_path w3 e w4);
        [|done|done].
      intros fname' Hname'. rewrite Hname in Hname'. by injection Hname' as <-. }
    split; [done|]. intros d Hdb Hfs Hdoc.
    by apply (finalize_handles E file_hash file_path news_item0 final_result
                news_item w0 w1 w2 w3 Hprocess Hcommit Hreload e w4 d bytes).
Qed.

(** * The loop over the classification stages *)

Lemma field_getitem doc k v : field doc k = Some v -> getitem doc k = Returned v.
Proof. destruct doc as [a|l|d]; simpl; try done. by intros ->. Qed.

Lemma sanitize_error_record e :
  _sanitize_mongo_keys (error_record e) = error_record e.
Proof. reflexivity. Qed.

Lemma find_one_run E s w :
  db_fails E (length (db_log w)) = false ->
  find_one E (VStr s) w
  = (Returned (default VNone (coll w !! s)), log_db (FindOne (VStr s)) w).
Proof. intros Hdb. unfold find_one, db_attempt, bind. by rewrite Hdb. Qed.

Lemma ask_returned E self content w v w1 :
  ask E self content w = (Returned v, w1) ->
  exists text, json_loads E text = Returned v.
Proof.
  unfold ask, generate_json, llm_generate, bind, lift.
  destruct (str_format E _ _); [|done].
  destruct (generate_content E _ _) as [reply|]; [|done].
  destruct (json_loads E (unfence (strip reply))) eqn:Hloads; [|done].
  intros [= <- _]. eauto.
Qed.

Lemma ask_store E self content : keeps same_store (ask E self content).
Proof. unfold ask. keeps_auto. Qed.

Section loop.
Variable E : Env.
Hypothesis Hdb : forall n, db_fails E n = false.
Variables (file_hash : string) (content : value).

(** One classification stage, whatever its generation call does. *)
Lemma classifier_step (self : agent) (news_item : value) (w : world) :
  class self = Classifier ->
  occurs "." (agent_name self) = false ->
  in_progress file_hash content news_item w ->
  exists record news_item' w',
    process E self news_item w = (Returned record, w') /\
    (forall e w1, ask E self content w = (Raised e, w1) ->
                  record = error_record e) /\
    verdict_or_error E record /\
    in_progress file_hash content news_item' w' /\
    stage_result news_item' (agent_name self) = Some record /\
    (forall other, other <> agent_name self ->
                   stage_result news_item' other = stage_result news_item other).
Proof.
  intros Hclass Hname (Hdoc & Hid & Hcontent & results & Hresults).
  destruct news_item as [a|l|d]; try done. simpl in Hid, Hcontent, Hresults.
  pose proof (ask_store E self content w) as [Hcoll Hlog].
  pose proof (ask_returned E self content w) as Hparsed.
  set (raw := match (ask E self content w).1 with
              | Returned v => v
              | Raised e => error_record e
              end).
  set (record := _sanitize_mongo_keys raw).
  set (w1 := (ask E self content w).2) in *.
  set (doc' := VDict (dict_set d "agents_results"
                        (VDict (dict_set results (agent_name self) record)))).
  exists record, doc',
    (set_coll (insert file_hash doc')
       (log_db (UpdateOne (VStr file_hash)
                  [("agents_results." +:+ agent_name self, record)]) w1)).
  assert (Hexec : execute E self (VDict d) w = (Returned raw, w1)).
  { unfold execute. rewrite Hclass. unfold classifier_execute. cbn [getitem].
    rewrite Hcontent, bind_lift_returned. unfold _get_llm_response, try_except.
    subst raw w1. by destruct (ask E self content w) as [[v|e] w1]. }
  split_and!.
  - unfold process. cbn [getitem]. rewrite Hid, !bind_lift_returned.
    rewrite (run_bind_returned _ _ _ _ _ Hexec). lazy zeta.
    rewrite bind_lift_returned. fold record.
    erewrite run_bind_returned; [reflexivity|].
    eapply update_one_run; [apply Hdb|by rewrite Hcoll|].
    cbn [apply_sets]. rewrite split_dots_stage by done.
    cbn [set_path]. rewrite Hresults. reflexivity.
  - intros e w2 Hask. subst record raw. by rewrite Hask.
  - subst record raw.
    destruct (ask E self content w) as [[v|e] w2] eqn:Hask; cbn [fst].
    + right. destruct (Hparsed v w2 eq_refl) as [text Htext]. eauto.
    + left. eauto.
  - subst doc'. split_and!; cbn [coll set_coll log_db field].
    + apply lookup_insert_eq.
    + by rewrite dict_get_set_ne.
    + by rewrite dict_get_set_ne.
    + eexists. apply dict_get_set_eq.
  - subst doc'. unfold stage_result, field. by rewrite !dict_get_set_eq.
  - intros other Hother. subst doc'. unfold stage_result, field.
    rewrite dict_get_set_eq, Hresults. by apply dict_get_set_ne.
Qed.

Lemma run_agents_commits (todo : list agent) (news_item : value) (w : world) :
  Forall (fun a => class a = Classifier /\ occurs "." (agent_name a) = false) todo ->
  in_progress file_hash content news_item w ->
  exists news_item' w',
    run_agents E file_hash todo news_item w = (Returned news_item', w') /\
    in_progress file_hash content news_item' w' /\
    (forall a, a ∈ todo ->
               exists record,
                 stage_result news_item' (agent_name a) = Some record /\
                 verdict_or_error E record) /\
    (forall other, other ∉ agent_name <$> todo ->
                   stage_result news_item' other = stage_result news_item other).
Proof.
  intros Htodo. revert news_item w.
  induction Htodo as [|a rest [Hclass Hname] _ IH]; intros news_item w Hprog.
  - exists news_item, w. split_and!; [done|done| |done].
    intros a Ha. by apply elem_of_nil in Ha.
  - destruct (classifier_step a news_item w Hclass Hname Hprog)
      as (record & ni1 & w1 & Hrun & _ & Hrecord & Hprog1 & Hentry & Hframe).
    assert (Hprog2 : in_progress file_hash content ni1
                       (log_db (FindOne (VStr file_hash)) w1)).
    { destruct Hprog1 as (? & ? & ? & ?). by split_and!. }
    destruct (IH ni1 _ Hprog2) as (ni' & w' & Hrest & Hprog' & Hall & Hothers).
    exists ni', w'. split_and!.
    + cbn [run_agents]. erewrite run_bind_returned; [exact Hrest|].
      apply run_try_returned. rewrite (run_bind_returned _ _ _ _ _ Hrun).
      unfold get_news_item. rewrite find_one_run by apply Hdb.
      destruct Hprog1 as (-> & _). done.
    + done.
    + intros a' [-> |Ha']%elem_of_cons; [|by apply Hall].
      destruct (decide (agent_name a ∈ agent_name <$> rest)) as [Hin|Hout].
      * apply list_elem_of_fmap in Hin as (a'' & Heq & Hin). rewrite Heq.
        by apply Hall.
      * exists record. by rewrite Hothers.
    + intros other Hother. rewrite fmap_cons in Hother.
      apply not_elem_of_cons in Hother as [Hne Hother].
      rewrite Hothers by done. by apply Hframe.
Qed.
End loop.

(** The loop returns whatever happens in it. *)
Lemma run_agents_returns E file_hash todo news_item w :
  exists news_item' w',
    run_agents E file_hash todo news_item w = (Returned news_item', w').
Proof.
  revert news_item w. induction todo as [|a rest IH]; intros news_item w.
  - by exists news_item, w.
  - cbn [run_agents]. rewrite run_bind. unfold try_except.
    destruct (bind (process E a news_item) _ w) as [[ni1|e] w1];
      [apply IH|]. unfold ret. apply IH.
Qed.

Lemma agents_classify E :
  Forall (fun a => class a = Classifier /\ occurs "." (agent_name a) = false)
    (agents E).
Proof. repeat constructor. Qed.


(** * Ingestion is an upsert *)

Lemma set_path_spares k rest v d doc' other :
  other <> k ->
  set_path (k :: rest) v (VDict d) = Returned doc' ->
  field doc' other = dict_get d other.
Proof.
  intros Hne. cbn [set_path].
  destruct (set_path rest v _) as [sub|e]; [|done].
  intros [= <-]. cbn [field]. by apply dict_get_set_ne.
Qed.

Lemma apply_sets_spares sets doc doc' :
  Forall (fun fv => spares_identity fv.1) sets ->
  apply_sets sets doc = Returned doc' ->
  field doc' "_id" = field doc "_id" /\ field doc' "content" = field doc "content".
Proof.
  intros Hsets. revert doc.
  induction Hsets as [|[path v] sets (k & rest & Hpath & Hid & Hcontent) _ IH];
    intros doc; cbn [apply_sets].
  - by intros [= <-].
  - cbn [fst] in Hpath. rewrite Hpath.
    destruct (set_path (k :: rest) v doc) as [doc1|e] eqn:Hset; [|done].
    intros [H1 H2]%IH. rewrite H1, H2.
    destruct doc as [a|l|d]; try done.
    split; by apply (set_path_spares k rest v d).
Qed.

Section upsert.
Variable E : Env.
Variables (file_hash : string) (content : value) (w0 : world).

Abbreviation Inv := (upsert_inv file_hash content w0).

Lemma Inv_same_store w w' : same_store w w' -> Inv w -> Inv w'.
Proof.
  intros [Hcoll _] [Hothers (doc & Hdoc & Hfields)]. split.
  - intros k Hk. rewrite Hcoll. by apply Hothers.
  - exists doc. by rewrite Hcoll.
Qed.

Lemma triple_untouched {A} (m : M A) :
  keeps same_store m -> triple Inv m (fun _ => Inv).
Proof. intros Hm w Hw. eapply Inv_same_store; [apply Hm|done]. Qed.

Lemma update_one_inv sets :
  Forall (fun fv => spares_identity fv.1) sets ->
  triple Inv (update_one E (VStr file_hash) sets) (fun _ => Inv).
Proof.
  intros Hsets w [Hothers (doc & Hdoc & Hid & Hcontent)].
  unfold update_one, db_attempt, bind.
  destruct (db_fails E (length (db_log w))).
  { split; [done|by exists doc]. }
  cbv beta iota. cbn [coll log_db]. rewrite Hdoc.
  destruct (apply_sets sets doc) as [doc'|e] eqn:Hset.
  - destruct (apply_sets_spares _ _ _ Hsets Hset) as [H1 H2].
    cbn [fst snd]. split.
    + intros k Hk. cbn [coll set_coll log_db].
      rewrite lookup_insert_ne by done. by apply Hothers.
    + exists doc'. cbn [coll set_coll log_db]. rewrite lookup_insert_eq.
      split_and!; congruence.
  - split; [done|by exists doc].
Qed.

Lemma find_one_inv :
  triple Inv (find_one E (VStr file_hash))
    (fun r w => Inv w /\ forall v, r = Returned v -> targets file_hash v).
Proof.
  intros w [Hothers (doc & Hdoc & Hid & Hcontent)].
  unfold find_one, db_attempt, bind.
  destruct (db_fails E (length (db_log w))); cbn [fst snd].
  - split; [|done]. split; [done|by exists doc].
  - split; [split; [done|by exists doc]|].
    intros v [= <-]. cbn [coll log_db]. rewrite Hdoc. simpl.
    intros v Hv. apply field_getitem in Hid. congruence.
Qed.

Lemma stage_path_spares name : spares_identity ("agents_results." +:+ name).
Proof.
  exists "agents_results", (split_dots name). split_and!; [|done|done].
  by apply (split_dots_app "agents_results").
Qed.

Lemma process_inv self news_item :
  targets file_hash news_item ->
  triple Inv (process E self news_item) (fun _ => Inv).
Proof.
  intros Htarget. unfold process.
  destruct (getitem news_item "_id") as [id|e] eqn:Hid.
  - rewrite (Htarget id Hid), bind_lift_returned.
    eapply triple_bind; [apply triple_untouched, execute_store|done|].
    intros result. lazy zeta. rewrite bind_lift_returned.
    eapply triple_bind; [apply update_one_inv|done|].
    + repeat constructor. apply stage_path_spares.
    + intros ?. by apply triple_ret.
  - rewrite bind_lift_raised. by intros w Hw.
Qed.

Lemma run_agents_inv todo news_item :
  targets file_hash news_item ->
  triple Inv (run_agents E file_hash todo news_item)
    (fun r w => Inv w /\ forall v, r = Returned v -> targets file_hash v).
Proof.
  revert news_item. induction todo as [|a rest IH]; intros news_item Htarget.
  - cbn [run_agents]. apply triple_ret. intros w Hw. split; [done|].
    by intros v [= <-].
  - cbn [run_agents].
    eapply triple_bind
      with (Q1 := fun r w => Inv w /\ forall v, r = Returned v -> targets file_hash v).
    + eapply triple_try
        with (Q1 := fun r w => Inv w /\ forall v, r = Returned v -> targets file_hash v).
      * eapply triple_bind; [by apply process_inv| |intros ?; apply find_one_inv].
        intros e w Hw. by split.
      * done.
      * intros e. apply triple_ret. intros w [Hw _]. split; [done|].
        by intros v [= <-].
    + intros e w [Hw _]. by split.
    + intros ni1 w [Hw Hni]. apply IH; [by apply Hni|done].
Qed.

Lemma finalize_inv news_item file_path :
  targets file_hash news_item ->
  triple Inv (finalize E file_hash news_item file_path) (fun _ => Inv).
Proof.
  intros Htarget. unfold finalize.
  eapply triple_try with (Q1 := fun _ => Inv).
  - eapply triple_bind; [by apply process_inv|done|intros final_result].
    eapply triple_bind; [apply update_one_inv|done|intros ?].
    { repeat constructor; by eexists _, []. }
    eapply triple_bind with (Q1 := fun _ => Inv).
    + eapply triple_weaken; [apply find_one_inv|done|]. by intros r w [Hw _].
    + done.
    + intros ni. apply triple_untouched, _distribute_store.
  - done.
  - intros e.
    eapply triple_bind; [apply update_one_inv|done|intros ?].
    { repeat constructor; by eexists _, []. }
    apply triple_untouched, _move_to_error_store.
Qed.
End upsert.

Lemma pipeline_inv E file_hash content w0 news_item file_path :
  targets file_hash news_item ->
  triple (upsert_inv file_hash content w0)
    (news_item' <- run_agents E file_hash (agents E) news_item ;;
     finalize E file_hash news_item' file_path)
    (fun _ => upsert_inv file_hash content w0).
Proof.
  intros Htarget.
  eapply triple_bind; [by apply run_agents_inv| |].
  - by intros e w [Hw _].
  - intros ni w [Hw Hni]. apply finalize_inv; [by apply Hni|done].
Qed.

(** The three ways ingestion can start. *)
Lemma process_file_unread E file_path w :
  fs_fails E (fs_ops w) = true ->
  process_file E file_path w = (Returned tt, count_fs w).
Proof.
  intros Hfs. unfold process_file, try_except, read_text, fs_attempt, bind.
  by rewrite Hfs.
Qed.

Lemma process_file_unsaved E file_path w content :
  files w !! file_path = Some content ->
  fs_fails E (fs_ops w) = false ->
  db_fails E (length (db_log w)) = true ->
  process_file E file_path w
  = (Raised (StoreError "store operation failed"),
     log_db (ReplaceOne (VStr (md5_hexdigest E content))) (tick (count_fs w))).
Proof.
  intros Hfile Hfs Hdb.
  unfold process_file, try_except, read_text, fs_attempt, bind.
  rewrite Hfs. cbv beta iota. cbn [files count_fs]. rewrite Hfile.
  cbv beta iota. unfold ret, datetime_now, save_news_item, lift, bind.
  cbn [getitem new_news_item dict_get String.eqb Ascii.eqb Bool.eqb].
  unfold replace_one, db_attempt, bind. cbn [db_log tick count_fs].
  by rewrite Hdb.
Qed.

Lemma process_file_saved E file_path w content :
  files w !! file_path = Some content ->
  fs_fails E (fs_ops w) = false ->
  db_fails E (length (db_log w)) = false ->
  let file_hash := md5_hexdigest E content in
  let news_item :=
    new_news_item file_hash (basename file_path) content
      (VAtom (ADatetime (clock w))) in
  process_file E file_path w
  = bind (run_agents E file_hash (agents E) news_item)
      (fun news_item' => finalize E file_hash news_item' file_path)
      (set_coll (insert file_hash news_item)
         (log_db (ReplaceOne (VStr file_hash)) (tick (count_fs w)))).
Proof.
  intros Hfile Hfs Hdb file_hash news_item.
  unfold process_file. rewrite run_bind.
  unfold try_except, read_text, fs_attempt. rewrite !run_bind.
  rewrite Hfs. cbv beta iota. cbn [files count_fs]. rewrite Hfile.
  cbv beta iota. unfold ret at 1. cbv beta iota.
  rewrite run_bind. unfold datetime_now at 1. cbv beta iota.
  rewrite run_bind. unfold save_news_item, new_news_item at 1.
  cbn [getitem dict_get String.eqb Ascii.eqb Bool.eqb].
  rewrite bind_lift_returned. unfold replace_one, db_attempt.
  rewrite !run_bind. cbn [db_log tick count_fs clock]. rewrite Hdb.
  reflexivity.
Qed.

(** C1, as the code has it.  Ingestion is an upsert under the
    fingerprint of the bytes: whatever the store held and whatever fails
    on the way, every document under another id is left as it was, and
    once the file is read and the first store operation succeeds there
    is a document under the fingerprint, carrying it as [_id] and the
    bytes as content.  A document already there is not looked at: it is
    replaced by a fresh one, in processing and with no stage result, and
    the stages and the finalizer run from there. *)
Theorem ingestion_is_an_upsert E (file_path : string) (w : world) (content : string) :
  files w !! file_path = Some content ->
  let file_hash := md5_hexdigest E content in
  let fresh :=
    new_news_item file_hash (basename file_path) content
      (VAtom (ADatetime (clock w))) in
  let w' := (process_file E file_path w).2 in
  same_others file_hash w w' /\
  (fs_fails E (fs_ops w) = false ->
   db_fails E (length (db_log w)) = false ->
   stored file_hash (VStr content) w' /\
   process_file E file_path w
   = bind (run_agents E file_hash (agents E) fresh)
       (fun news_item => finalize E file_hash news_item file_path)
       (set_coll (insert file_hash fresh)
          (log_db (ReplaceOne (VStr file_hash)) (tick (count_fs w))))).
Proof.
  intros Hfile file_hash fresh w'. subst w'.
  destruct (fs_fails E (fs_ops w)) eqn:Hfs.
  { by rewrite process_file_unread. }
  destruct (db_fails E (length (db_log w))) eqn:Hdb.
  { by rewrite (process_file_unsaved E file_path w content). }
  rewrite (process_file_saved E file_path w content) by done. lazy zeta.
  fold file_hash. fold fresh.
  match goal with
  | |- context [bind (run_agents E file_hash (agents E) ?ni) _ ?w1] =>
      destruct (pipeline_inv E file_hash (VStr content) w ni file_path
                  ltac:(by intros v [= <-]) w1) as [Hothers Hstored]
  end.
  - split.
    + intros k Hk. cbn [coll set_coll log_db tick count_fs].
      by rewrite lookup_insert_ne.
    + eexists. cbn [coll set_coll log_db tick count_fs].
      rewrite lookup_insert_eq. split_and!; reflexivity.
  - split; [exact Hothers|]. intros _ _. split; [exact Hstored|reflexivity].
Qed.

(** * Store failures *)

Section attempts_of.
Variable E : Env.

Lemma db_attempt_once op : attempts (db_attempt E op) 1.
Proof.
  intros w. unfold db_attempt.
  destruct (db_fails E (length (db_log w))); cbn [snd db_log log_db];
    rewrite length_app; simpl; lia.
Qed.

Lemma replace_one_once id doc : attempts (replace_one E id doc) 1.
Proof.
  unfold replace_one. apply (attempts_bind _ _ 1 0); [apply db_attempt_once|].
  intros _. destruct id as [[| | | |s|]| |]; by intros w; simpl; lia.
Qed.

Lemma find_one_once id : attempts (find_one E id) 1.
Proof.
  unfold find_one. apply (attempts_bind _ _ 1 0); [apply db_attempt_once|].
  intros _ w. destruct id as [[| | | |s|]| |]; simpl; lia.
Qed.

Lemma update_one_once id sets : attempts (update_one E id sets) 1.
Proof.
  unfold update_one. apply (attempts_bind _ _ 1 0); [apply db_attempt_once|].
  intros _ w. repeat case_match; simpl; lia.
Qed.

Lemma lift_none {A} (r : outcome A) : attempts (lift r) 0.
Proof. intros w. simpl. lia. Qed.

Lemma ret_none {A} (a : A) : attempts (ret a) 0.
Proof. intros w. simpl. lia. Qed.

Lemma save_news_item_once news_item : attempts (save_news_item E news_item) 1.
Proof.
  unfold save_news_item. apply (attempts_bind _ _ 0 1); [apply lift_none|].
  intros id. apply replace_one_once.
Qed.

Lemma process_once self news_item : attempts (process E self news_item) 1.
Proof.
  unfold process.
  apply (attempts_bind _ _ 0 1); [apply lift_none|intros _].
  apply (attempts_bind _ _ 0 1); [apply attempts_none, execute_store|intros result].
  lazy zeta.
  apply (attempts_bind _ _ 0 1); [apply lift_none|intros id].
  apply (attempts_bind _ _ 1 0); [apply update_one_once|intros _].
  apply ret_none.
Qed.

Lemma run_agents_twice_each file_hash todo news_item :
  attempts (run_agents E file_hash todo news_item) (2 * length todo).
Proof.
  revert news_item. induction todo as [|a rest IH]; intros news_item.
  - apply ret_none.
  - cbn [run_agents length].
    eapply attempts_more; [apply (attempts_bind _ _ 2 (2 * length rest))|lia].
    + apply (attempts_try _ _ 2 0).
      * apply (attempts_bind _ _ 1 1); [apply process_once|intros _].
        apply find_one_once.
      * intros e. apply ret_none.
    + intros ni. apply IH.
Qed.

Lemma finalize_four file_hash news_item file_path :
  attempts (finalize E file_hash news_item file_path) 4.
Proof.
  unfold finalize. apply (attempts_try _ _ 3 1).
  - apply (attempts_bind _ _ 1 2); [apply process_once|intros final_result].
    apply (attempts_bind _ _ 1 1); [apply update_one_once|intros _].
    apply (attempts_bind _ _ 1 0); [apply find_one_once|intros ni].
    apply attempts_none, _distribute_store.
  - intros e.
    apply (attempts_bind _ _ 1 0); [apply update_one_once|intros _].
    apply attempts_none, _move_to_error_store.
Qed.

Lemma process_file_bounded file_path : attempts (process_file E file_path) 15.
Proof.
  unfold process_file.
  apply (attempts_bind _ _ 0 15).
  { apply attempts_none. apply keeps_try; [apply _| |intros e; apply keeps_ret; apply _].
    apply keeps_bind; [apply _|apply read_text_store|intros c; apply keeps_ret; apply _]. }
  intros [content|]; [|eapply attempts_more; [apply ret_none|lia]].
  apply (attempts_bind _ _ 0 15); [apply attempts_none, datetime_now_store|].
  intros created_at. lazy zeta.
  apply (attempts_bind _ _ 1 14); [apply save_news_item_once|intros _].
  apply (attempts_bind _ _ 10 4); [apply (run_agents_twice_each _ (agents E))|].
  intros ni. apply finalize_four.
Qed.
End attempts_of.


(** * The committed decision *)

#[local] Instance same_docs_preorder : PreOrder same_docs.
Proof.
  split.
  - by intros w.
  - intros w1 w2 w3 H1 H2. unfold same_docs in *. congruence.
Qed.

Lemma find_one_docs E id : keeps same_docs (find_one E id).
Proof. prim. Qed.

Lemma same_store_docs w w' : same_store w w' -> same_docs w w'.
Proof. by intros [H _]. Qed.

Section decision.
Variable E : Env.
Variables (file_hash : string) (decision : value).

Lemma decided_docs w w' : same_docs w w' -> decided file_hash decision w ->
                          decided file_hash decision w'.
Proof. intros Hcoll (doc & Hdoc & Hfield). exists doc. by rewrite Hcoll. Qed.

Lemma triple_same_docs {A} (m : M A) :
  keeps same_docs m ->
  triple (decided file_hash decision) m (fun _ => decided file_hash decision).
Proof. intros Hm w Hw. eapply decided_docs; [apply Hm|done]. Qed.

Lemma quarantine_keeps_decision e :
  triple (decided file_hash decision)
    (update_one E (VStr file_hash)
       [("status", VStr "error"); ("error", VStr (str_exn e))])
    (fun _ => decided file_hash decision).
Proof.
  intros w (doc & Hdoc & Hfield).
  unfold update_one, db_attempt, bind.
  destruct (db_fails E (length (db_log w))); [by exists doc|].
  cbv beta iota. cbn [coll log_db]. rewrite Hdoc.
  destruct (apply_sets _ doc) as [doc'|e0] eqn:Hset; [|by exists doc].
  destruct doc as [a|l|d]; [done|done|].
  injection Hset as <-.
  eexists. cbn [snd coll set_coll log_db]. rewrite lookup_insert_eq.
  split; [done|]. cbn [field] in *. by rewrite !dict_get_set_ne.
Qed.

(** Once the decision is committed, the rest of the [try] block and
    its handler leave it in place. *)
Lemma decision_stays file_path :
  triple (decided file_hash decision)
    (try_except
       (news_item <- get_news_item E (VStr file_hash) ;;
        _distribute E news_item file_path)
       (fun e =>
          update_one E (VStr file_hash)
            [("status", VStr "error"); ("error", VStr (str_exn e))] ;;
          _move_to_error E file_path))
    (fun _ => decided file_hash decision).
Proof.
  eapply triple_try with (Q1 := fun _ => decided file_hash decision).
  - eapply triple_bind; [apply triple_same_docs, find_one_docs|done|].
    intros ni. apply triple_same_docs.
    eapply keeps_sub; [apply same_store_docs|apply _distribute_store].
  - done.
  - intros e. eapply triple_bind; [apply quarantine_keeps_decision|done|].
    intros ?. apply triple_same_docs.
    eapply keeps_sub; [apply same_store_docs|apply _move_to_error_store].
Qed.
End decision.

(** The finalizer's stage, when the generation service answers. *)
Lemma finalizer_step E file_hash content news_item results dumped prompt reply
    verdict w :
  db_fails E (length (db_log w)) = false ->
  coll w !! file_hash = Some news_item ->
  field news_item "_id" = Some (VStr file_hash) ->
  field news_item "content" = Some content ->
  field news_item "agents_results" = Some (VDict results) ->
  json_dumps E (VDict results) = Returned dumped ->
  str_format E (template_of E "finalizer_agent")
    [("content", content); ("agents_results", VStr dumped)] = Returned prompt ->
  generate_content E (llm_calls w) prompt = Returned reply ->
  json_loads E (unfence (strip reply)) = Returned verdict ->
  exists w1 doc,
    process E (FinalizerAgent E) news_item w
    = (Returned (_sanitize_mongo_keys verdict), w1) /\
    coll w1 !! file_hash = Some (VDict doc) /\
    length (db_log w1) = S (length (db_log w)).
Proof.
  intros Hdb Hdoc Hid Hcontent Hresults Hdump Hformat Hreply Hloads.
  destruct news_item as [a|l|d]; try done. cbn [field] in *.
  assert (Hexec : execute E (FinalizerAgent E) (VDict d) w
                  = (Returned verdict, count_llm w)).
  { unfold execute, finalizer_execute. cbn [class FinalizerAgent get_default getitem].
    rewrite Hresults, Hcontent. cbn [default from_option id].
    rewrite !bind_lift_returned, Hdump, bind_lift_returned.
    cbn [prompt_template FinalizerAgent]. rewrite Hformat, bind_lift_returned.
    apply run_try_returned. unfold generate_json, llm_generate, bind, lift.
    by rewrite Hreply, Hloads. }
  eexists _, _. split_and!.
  - unfold process. cbn [getitem]. rewrite Hid, !bind_lift_returned.
    rewrite (run_bind_returned _ _ _ _ _ Hexec). lazy zeta.
    rewrite bind_lift_returned.
    erewrite run_bind_returned; [reflexivity|].
    eapply update_one_run; [exact Hdb|exact Hdoc|].
    cbn [apply_sets agent_name FinalizerAgent].
    rewrite split_dots_stage by done. cbn [set_path]. rewrite Hresults.
    reflexivity.
  - cbn [coll set_coll log_db count_llm]. apply lookup_insert_eq.
  - cbn [db_log set_coll log_db count_llm]. rewrite length_app. simpl. lia.
Qed.

(** C9, as the code has it.  When the store works and the generation
    service answers the finalizer with a record, that record, sanitized,
    is the committed final decision, and it stays so to the end of the
    [try] block and of its handler, whatever the stage results say and
    whichever recipients it names: the code checks no threshold and
    narrows no recipient list, the override is left to the prompt. *)
Theorem final_decision_is_the_reply E (file_hash file_path : string)
    (content news_item : value) (results : list (string * value))
    (dumped prompt reply : string) (verdict : value) (w : world) :
  (forall n, db_fails E n = false) ->
  coll w !! file_hash = Some news_item ->
  field news_item "_id" = Some (VStr file_hash) ->
  field news_item "content" = Some content ->
  field news_item "agents_results" = Some (VDict results) ->
  json_dumps E (VDict results) = Returned dumped ->
  str_format E (template_of E "finalizer_agent")
    [("content", content); ("agents_results", VStr dumped)] = Returned prompt ->
  generate_content E (llm_calls w) prompt = Returned reply ->
  json_loads E (unfence (strip reply)) = Returned verdict ->
  decided file_hash (_sanitize_mongo_keys verdict)
    (finalize E file_hash news_item file_path w).2.
Proof.
  intros Hdb Hdoc Hid Hcontent Hresults Hdump Hformat Hreply Hloads.
  destruct (finalizer_step E file_hash content news_item results dumped prompt
              reply verdict w (Hdb _) Hdoc Hid Hcontent Hresults Hdump Hformat
              Hreply Hloads) as (w1 & doc & Hprocess & Hdoc1 & _).
  pose proof (decision_stays E file_hash (_sanitize_mongo_keys verdict) file_path)
    as Hstays.
  unfold finalize, try_except.
  rewrite (run_bind_returned _ _ _ _ _ Hprocess).
  erewrite run_bind_returned;
    [|eapply update_one_run; [apply Hdb|exact Hdoc1|reflexivity]].
  match goal with |- decided _ _ (match ?body ?w2 with _ => _ end).2 =>
    specialize (Hstays w2) end.
  unfold try_except in Hstays. apply Hstays.
  eexists. cbn [coll set_coll log_db]. rewrite lookup_insert_eq.
  split; [done|]. cbn [field]. rewrite dict_get_set_ne by done.
  apply dict_get_set_eq.
Qed.

(** * The claims on concrete runs *)

Import Fixtures.




(** C1, the claim as stated fails: the document of these bytes is
    Completed, and ingesting them again calls the generation service six
    more times. *)
Lemma reingestion_reruns_the_pipeline :
  ~ reingestion_is_noop E_ok w_again feed_file.
Proof.
  intros H.
  destruct (H "URGENT: outage" (doc_of w_again)) as (Hcalls & _);
    [vm_compute; reflexivity..|].
  vm_compute in Hcalls. discriminate.
Qed.

Lemma ingestion_is_an_upsert_witness :
  same_others h1 w_again (process_file E_ok feed_file w_again).2 /\
  stored h1 (VStr "URGENT: outage") (process_file E_ok feed_file w_again).2.
Proof.
  destruct (ingestion_is_an_upsert E_ok feed_file w_again "URGENT: outage")
    as [Hothers Hsaved]; [vm_compute; reflexivity|].
  split; [exact Hothers|].
  destruct Hsaved as [Hstored _]; [vm_compute; reflexivity..|exact Hstored].
Defined.

(** C2, the failing run: the generation service fails for the
    finalizer, the finalizer returns its record with an [error] field,
    and the orchestrator commits it as the final decision and marks the
    Document completed; no error is recorded on the Document.  The source
    does reach the error sink, as the record names no recipient. *)
Theorem finalizer_error_is_marked_completed :
  let run := process_file E_finalizer_down feed_file w0 in
  run.1 = Returned tt /\
  field (doc_of run.2) "status" = Some (VStr "completed") /\
  field (doc_of run.2) "final_decision"
  = Some (VDict [("is_safe", VBool false); ("final_recipients", VList []);
                 ("error", VStr "quota exceeded")]) /\
  field (doc_of run.2) "error" = None /\
  files run.2 !! feed_file = None /\
  files run.2 !! error_file feed_file = Some "URGENT: outage".
Proof. vm_compute. by split_and!. Qed.



Lemma no_recipient_quarantine_witness :
  exists w' doc,
    finalize E_finalizer_down h1 (item_at_finalizer E_finalizer_down) feed_file
      (at_finalizer E_finalizer_down).2 = (Returned tt, w') /\
    files w' !! error_file feed_file = Some "URGENT: outage" /\
    files w' !! feed_file = None /\
    dirs w' = ∅ /\
    coll w' !! h1 = Some doc /\
    field doc "status" = Some (VStr "completed").
Proof.
  destruct (no_recipient_quarantine E_finalizer_down h1 feed_file
              (item_at_finalizer E_finalizer_down)
              (final_result_of E_finalizer_down) (reloaded E_finalizer_down)
              (final_result_of E_finalizer_down) (VList []) (VStr "a.txt")
              "URGENT: outage"
              (at_finalizer E_finalizer_down).2 (after_process E_finalizer_down).2
              (after_commit E_finalizer_down) (after_reload E_finalizer_down).2)
    as (w' & _ & Hrun & Hmoved & Hgone & _ & Hdirs & _ & _ & Hdoc);
    [vm_compute; reflexivity..|].
  destruct (Hdoc (doc_of (after_process E_finalizer_down).2))
    as (doc & Hstored & Hstatus & _); [vm_compute; reflexivity|].
  exists w', doc. split; [exact Hrun|]. split; [exact Hmoved|].
  split; [apply Hgone; discriminate|]. split; [exact Hdirs|].
  split; [exact Hstored|exact Hstatus].
Defined.

(** C7, the claim as stated fails: of the two recipients the second
    one's copy fails, the source has left the ingestion location all the
    same, and that recipient has nothing. *)
Lemma failed_fan_out_removes_the_source :
  ~ removed_only_after_fan_out E_disk_full w0 feed_file.
Proof.
  intros H.
  assert (Hcopy : files (process_file E_disk_full feed_file w0).2
                  !! delivery_file "HR" (basename feed_file)
                  = Some "URGENT: outage").
  { apply (H "URGENT: outage"
             (doc_of (process_file E_disk_full feed_file w0).2) "HR");
      [vm_compute; reflexivity..|].
    replace (committed_recipients _) with ["Legal"; "HR"]
      by (vm_compute; reflexivity).
    apply elem_of_cons. right. apply elem_of_cons. by left. }
  vm_compute in Hcopy. discriminate.
Qed.

Lemma fan_out_then_removal_witness :
  (exists w4,
      finalize E_two h1 (item_at_finalizer E_two) feed_file (at_finalizer E_two).2
      = (Returned tt, w4) /\
      files w4 !! delivery_file "HR" "a.txt" = Some "URGENT: outage" /\
      files w4 !! metadata_file "HR" "a.txt" = Some "{json}" /\
      files w4 !! feed_file = None) /\
  (exists w5 doc,
      finalize E_disk_full h1 (item_at_finalizer E_disk_full) feed_file
        (at_finalizer E_disk_full).2 = (Returned tt, w5) /\
      files w5 !! error_file feed_file = Some "URGENT: outage" /\
      files w5 !! feed_file = None /\
      coll w5 !! h1 = Some doc /\
      field doc "status" = Some (VStr "error")).
Proof.
  split.
  - destruct (fan_out_then_removal E_two h1 feed_file "a.txt"
                (item_at_finalizer E_two) (final_result_of E_two) (reloaded E_two)
                (VStr h1) (final_result_of E_two) ["Legal"; "HR"] "URGENT: outage"
                (at_finalizer E_two).2 (after_process E_two).2 (after_commit E_two)
                (after_reload E_two).2) as [Hok _];
      [solve [vm_compute; reflexivity|discriminate]..|].
    destruct (Hok "{json}" (fun _ => eq_refl) eq_refl)
      as (w4 & Hrun & Hall & _ & Hsrc & _).
    exists w4. destruct (Hall "HR") as (Hcopy & Hmeta & _).
    + apply elem_of_cons. right. apply elem_of_cons. by left.
    + split; [exact Hrun|]. split; [exact Hcopy|]. split; [exact Hmeta|exact Hsrc].
  - destruct (fan_out_then_removal E_disk_full h1 feed_file "a.txt"
                (item_at_finalizer E_disk_full) (final_result_of E_disk_full)
                (reloaded E_disk_full) (VStr h1) (final_result_of E_disk_full)
                ["Legal"; "HR"] "URGENT: outage"
                (at_finalizer E_disk_full).2 (after_process E_disk_full).2
                (after_commit E_disk_full) (after_reload E_disk_full).2)
      as [_ Hfail];
      [solve [vm_compute; reflexivity|discriminate]..|].
    set (w4 := (_distribute E_disk_full (reloaded E_disk_full) feed_file
                  (after_reload E_disk_full).2).2).
    destruct (Hfail (OSError "file operation failed") w4) as [Hsrc Hhandler];
      [vm_compute; reflexivity|].
    destruct (Hhandler
                match coll w4 !! h1 with Some (VDict d) => d | _ => [] end)
      as (w5 & doc & Hfin & Herr & Hgone & Hdoc & Hstatus & _);
      [vm_compute; reflexivity..|].
    exists w5, doc. split; [exact Hfin|]. split; [exact Herr|].
    split; [apply Hgone; discriminate|]. split; [exact Hdoc|exact Hstatus].
Defined.


(** C9, the claim as stated fails: the sensitivity stage committed the
    top score of its scale, 10, the finalizer's reply names All
    Employees with no note, and that is the committed decision. *)
Lemma everyone_is_committed_unchecked :
  ~ safety_override 8 E_everyone w0 feed_file.
Proof.
  intros H.
  destruct (H "URGENT: outage"
              (doc_of (process_file E_everyone feed_file w0).2) 10%Z)
    as [Hnot|Hnote]; [vm_compute; reflexivity..|discriminate| |].
  - apply Hnot. replace (committed_recipients _) with ["All Employees"]
      by (vm_compute; reflexivity).
    apply elem_of_cons. by left.
  - vm_compute in Hnote. discriminate.
Qed.

Lemma final_decision_is_the_reply_witness :
  decided h1 (VDict [("is_safe", VBool true);
                     ("final_recipients", VList [VStr "All Employees"])])
    (finalize E_everyone h1 (item_at_finalizer E_everyone) feed_file
       (at_finalizer E_everyone).2).2.
Proof.
  apply (final_decision_is_the_reply E_everyone h1 feed_file
           (VStr "URGENT: outage") (item_at_finalizer E_everyone)
           (results_at_finalizer E_everyone) "{json}" "finalizer_agent"
           "final-everyone"
           (VDict [("is_safe", VBool true);
                   ("final_recipients", VList [VStr "All Employees"])])
           (at_finalizer E_everyone).2);
    solve [vm_compute; reflexivity|intros n; reflexivity].
Defined.
